(** * Gerrit repository compare: the diff digest and its REST pipeline

    A shallow embedding of [gerrit_repository_compare_requests.py].

    Conventions of the embedding.
    - A Python [str] is a [string]; one [ascii] stands for one character of
      the Python string, so the texts covered are those in the 8-bit range.
    - A diff block (a JSON object of Gerrit's DiffInfo [content] list) is a
      [gmap] from its keys to the lists of lines they hold; the code reads the
      keys ["ab"], ["a"] and ["b"] only.
    - Decoded JSON has the shape the code's annotations give it
      ([Dict[str, Any]], [List[str]]) and Gerrit's REST API documents; JSON
      of any other shape is outside the embedding.
    - An exception is a value: code that can raise returns an [outcome],
      and the pipeline, which also makes requests, runs in the monad [M].
    - The server answers a URL the same way whenever it is asked. *)

From Stdlib Require Import ZArith Ascii String List Lia.
From stdpp Require Import gmap strings list.

Local Open Scope Z_scope.
Local Open Scope stdpp_scope.

(** ** Strings *)

(** The one-character string ["\n"]. *)
Definition nl : string := String "010"%char "".

Module Str.

(** [s[n:]] for [0 <= n]. *)
Fixpoint drop (n : nat) (s : string) : string :=
  match n, s with
  | O, _ => s
  | S _, "" => ""
  | S n', String _ s' => drop n' s'
  end.

(** The characters of a string, for statements about what it contains. *)
Definition chars (s : string) : list ascii := list_ascii_of_string s.

(** [sub in s] *)
Fixpoint contains (sub s : string) : bool :=
  String.prefix sub s ||
  match s with
  | "" => false
  | String _ s' => contains sub s'
  end.

(** [s.split(sep, 1)] for a non-empty [sep]: the text before the first
    occurrence of [sep] and the text after it, or [s] alone when [sep] does
    not occur. *)
Fixpoint cut (sep s : string) : option (string * string) :=
  if String.prefix sep s then Some ("", drop (String.length sep) s)
  else
    match s with
    | "" => None
    | String c s' =>
        match cut sep s' with
        | Some (before, after) => Some (String c before, after)
        | None => None
        end
    end.

Definition split1 (sep s : string) : list string :=
  match cut sep s with
  | Some (before, after) => [before; after]
  | None => [s]
  end.

(** [p.rfind(c)] for a one-character [c]: the index of the last [c] in [p],
    or -1. [i] is the index of the head of [p], [found] the answer so far. *)
Fixpoint rfind_from (c : ascii) (p : string) (i found : Z) : Z :=
  match p with
  | "" => found
  | String d p' => rfind_from c p' (i + 1) (if Ascii.eqb d c then i else found)
  end.

Definition rfind (c : ascii) (p : string) : Z := rfind_from c p 0 (-1).

(** [c.lower()] on the 8-bit range: A-Z, and the capital letters
    U+00C0-U+00DE except the multiplication sign U+00D7, move up by 32. *)
Definition lower_char (c : ascii) : ascii :=
  let n := N_of_ascii c in
  if ((65 <=? n) && (n <=? 90) ||
      (192 <=? n) && (n <=? 222) && negb (n =? 215))%N
  then ascii_of_N (n + 32) else c.

(** [s.lower()] *)
Fixpoint lower (s : string) : string :=
  match s with
  | "" => ""
  | String c s' => String (lower_char c) (lower s')
  end.

End Str.

(** ** Python slicing of a list *)

(** A slice bound [k] of a sequence of length [len], as Python normalises
    it for a step of 1: a negative bound counts from the end, and the result
    is clamped to [0 .. len]. *)
Definition slice_bound (len : nat) (k : Z) : nat :=
  let k' := if k <? 0 then k + Z.of_nat len else k in
  Z.to_nat (Z.max 0 (Z.min (Z.of_nat len) k')).

(** [l[lo:hi]]; [None] is an omitted bound. *)
Definition py_slice {A} (lo hi : option Z) (l : list A) : list A :=
  let start := from_option (slice_bound (length l)) 0%nat lo in
  let stop := from_option (slice_bound (length l)) (length l) hi in
  take (stop - start) (drop start l).

(** [enumerate(l)] *)
Fixpoint enumerate_from {A} (i : nat) (l : list A) : list (nat * A) :=
  match l with
  | [] => []
  | x :: l' => (i, x) :: enumerate_from (S i) l'
  end.

Definition enumerate {A} (l : list A) : list (nat * A) := enumerate_from 0 l.

(** ** The diff digest: [repository_compare] *)

(** A block of the [content] list. *)
Abbreviation block := (gmap string (list string)).

(** The decoded diff of one file; [content] is [None] when the key is
    absent. *)
Record diff_json := DiffJson { content : option (list block) }.

(** ["".join(f"{prefix}{line}\n" for line in lines)] *)
Definition format_compare (lines : list string) (prefix : string) : string :=
  String.concat "" (map (fun line => prefix +:+ line +:+ nl) lines).

(** The body of the loop over [enumerate(diff_info)]: [n] is
    [len(diff_info)], [output] the text accumulated so far. *)
Definition block_step (n : nat) (output : string) (ib : nat * block) : string :=
  let '(i, blk) := ib in
  match blk !! "ab" with
  | Some ab =>
      if Z.of_nat i =? 0 then
        output +:+ format_compare (py_slice (Some (-4)) None ab) ""
      else if Z.of_nat i =? Z.of_nat n - 1 then
        output +:+ format_compare (py_slice (Some 0) (Some 4) ab) ""
      else
        (output +:+ format_compare (py_slice (Some 0) (Some 4) ab) "")
          +:+ format_compare (py_slice (Some (-4)) None ab) ""
  | None =>
      match blk !! "a", blk !! "b" with
      | Some a, Some b =>
          (output +:+ format_compare a "-") +:+ format_compare b "+"
      | Some a, None => output +:+ format_compare a "-"
      | None, Some b => output +:+ format_compare b "+"
      | None, None => output
      end
  end.

Definition repository_compare (d : diff_json) : string :=
  let diff_info := default [] (content d) in
  let output :=
    fold_left (block_step (length diff_info)) (enumerate diff_info) "" in
  output +:+ (nl +:+ nl +:+ nl).

(** ** Exceptions *)

(** The exception classes the program tells apart: [except requests.HTTPError]
    catches the first, [except Exception] every one. [IndexError] is what
    indexing a list out of range raises, and [OtherError] stands for any
    other subclass of [Exception] a library call raises (a connection error,
    a timeout, ...). *)
Inductive exn_class := HTTPError | RuntimeError | IndexError | OtherError.

(** An exception with the text [str(e)] gives. *)
Record exn := Exn { class_of : exn_class; str_of : string }.

Inductive outcome (A : Type) :=
| Return (a : A)
| Raise (e : exn).
Arguments Return {A} a.
Arguments Raise {A} e.

(** [l[i]] for [0 <= i] *)
Definition getitem {A} (l : list A) (i : nat) : outcome A :=
  match l !! i with
  | Some x => Return x
  | None => Raise (Exn IndexError "list index out of range")
  end.

(** ** [strip_gerrit_json] *)

Definition strip_gerrit_json (text : string) : outcome string :=
  let prefix := ")]}'" in
  if String.prefix prefix text then
    if Str.contains nl text then getitem (Str.split1 nl text) 1
    else Return ""
  else Return text.

(** ** The file filters *)

(** [os.path.splitext(p)] of [posixpath]: the extension starts at the last
    dot of the last path component, unless only dots precede it there. The
    library's loop over the characters between the separator and the dot is
    the [existsb]. *)
Definition splitext (p : string) : string * string :=
  let sepIndex := Str.rfind "/" p in
  let dotIndex := Str.rfind "." p in
  let filename := String.substring (Z.to_nat (sepIndex + 1))
                    (Z.to_nat (dotIndex - (sepIndex + 1))) p in
  if (dotIndex >? sepIndex) &&
     existsb (fun c => negb (Ascii.eqb c ".")) (Str.chars filename)
  then (String.substring 0 (Z.to_nat dotIndex) p,
        Str.drop (Z.to_nat dotIndex) p)
  else (p, "").

Definition ext_list : gset string :=
  {[ ".so"; ".a"; ".md"; ".png"; ".jpg"; ".jpeg"; ".gif"; ".zip"; ".tar";
     ".gz"; ".bz2" ]}.

Definition is_ignored_file (path : string) : bool :=
  let '(_, ext) := splitext path in
  bool_decide (Str.lower ext ∈ ext_list).

Definition special_keys : gset string := {[ "/COMMIT_MSG"; "/MERGE_LIST" ]}.

(** [[k for k in file_data.keys() if k not in special_keys]] *)
Definition file_list {V} (file_data : list (string * V)) : list string :=
  filter (λ k, k ∉ special_keys) file_data.*1.

(** ** The libraries the program calls *)

(** The decoded change: [current_revision] is [None] when the key is
    absent. *)
Record change_info := ChangeInfo { current_revision : option string }.

(** What [requests], [json] and [urllib] contribute. A decoder answers
    [inl msg] when [json.loads] raises a [JSONDecodeError] whose text is
    [msg]; the three decoders are [json.loads] at the three shapes the
    program reads. These are the two outcomes of [json.loads] the embedding
    covers: a body on which it raises another exception (a RecursionError on
    input nested too deeply) is outside it, and no statement below speaks
    of such a body. The files response is the decoded object as its
    key-value pairs in order; the program reads the keys only. *)
Record library := Library {
  response : Type;
  text : response → string;
  (** [resp.raise_for_status()]: [Some msg] when it raises the
      [HTTPError] whose text is [msg]. *)
  status_error : response → option string;
  (** [urllib.parse.quote(s, safe="")] *)
  quote : string → string;
  file_info : Type;
  loads_change : string → string + change_info;
  loads_files : string → string + list (string * file_info);
  loads_diff : string → string + diff_json;
}.

(** ** The monad of the pipeline *)

(** A computation yields the URLs it requested, in order, and how it ended. *)
Definition M (A : Type) : Type := list string * outcome A.

Definition ret {A} (a : A) : M A := ([], Return a).

Definition raise {A} (e : exn) : M A := ([], Raise e).

Definition bind {A B} (m : M A) (k : A → M B) : M B :=
  match m with
  | (log, Raise e) => (log, Raise e)
  | (log, Return a) => let '(log', r) := k a in (log ++ log', r)
  end.

(** [try: m  except Exception as e: handler e] *)
Definition try_except {A} (m : M A) (handler : exn → M A) : M A :=
  match m with
  | (log, Return a) => (log, Return a)
  | (log, Raise e) => let '(log', r) := handler e in (log ++ log', r)
  end.

Definition lift {A} (o : outcome A) : M A := ([], o).

Notation "x <- m ;; k" := (bind m (fun x => k))
  (at level 100, m at next level, right associativity).

(** [for x in l: acc = body acc x] *)
Fixpoint for_each {A S} (body : S → A → M S) (l : list A) (acc : S) : M S :=
  match l with
  | [] => ret acc
  | x :: l' => acc' <- body acc x ;; for_each body l' acc'
  end.

(** ** [Repository_Compare] *)

Section Pipeline.

Context (L : library).

(** [session.get(url, timeout=timeout)] for the session the program sets
    up: what the server and the transport answer for a URL. *)
Definition session := string → outcome (response L).

Definition get (s : session) (url : string) : M (response L) := ([url], s url).

Definition raise_for_status (resp : response L) : M unit :=
  match status_error L resp with
  | Some msg => raise (Exn HTTPError msg)
  | None => ret tt
  end.

(** The [try: json.loads(strip_gerrit_json(resp.text))] block with its
    [except json.JSONDecodeError as e: raise RuntimeError(...)], which the
    program writes three times; [what] is the start of the message. *)
Definition decode {A} (loads : string → string + A) (what : string)
    (resp : response L) : M A :=
  body <- lift (strip_gerrit_json (text L resp)) ;;
  match loads body with
  | inr data => ret data
  | inl e =>
      raise (Exn RuntimeError
               (what +:+ e +:+ nl +:+ "Raw: "
                  +:+ String.substring 0 200 (text L resp)))
  end.

(** [f"======== file: {file_path}\n\n"], which opens the digest of a file
    and both inline error entries. *)
Definition header (file_path : string) : string :=
  "======== file: " +:+ file_path +:+ nl +:+ nl.

Definition make_message (s : session) (file_url file_path : string)
    : M string :=
  if is_ignored_file file_path then ret ""
  else
    let encoded_path := quote L file_path in
    let path_url := file_url +:+ "/" +:+ encoded_path +:+ "/diff" in
    path_resp <- get s path_url ;;
    _ <- raise_for_status path_resp ;;
    return_data <-
      decode (loads_diff L) ("Decode diff for " +:+ file_path +:+ " failed: ")
        path_resp ;;
    ret (header file_path +:+ repository_compare return_data).

(** The body of [for file_path in file_list]. *)
Definition file_step (s : session) (file_url : string)
    (results : list string) (file_path : string) : M (list string) :=
  try_except
    (msg <- make_message s file_url file_path ;;
     if String.eqb msg "" then ret results else ret (results ++ [msg]))
    (fun e =>
       match class_of e with
       | HTTPError =>
           ret (results ++
                  [header file_path +:+ "[HTTP error] " +:+ str_of e
                     +:+ nl +:+ nl])
       | _ =>
           ret (results ++
                  [header file_path +:+ "[Error] " +:+ str_of e +:+ nl +:+ nl])
       end).

Definition Repository_Compare (s : session) (base_url change_id : string)
    : M (list string) :=
  let change_url :=
    base_url +:+ "/a/changes/" +:+ change_id +:+ "?o=CURRENT_REVISION" in
  resp <- get s change_url ;;
  _ <- raise_for_status resp ;;
  change_data <-
    decode (loads_change L) "Decode change response failed: " resp ;;
  match current_revision change_data with
  | None | Some "" =>
      raise (Exn RuntimeError
               "No current_revision found. Check change_id or permissions.")
  | Some revision_id =>
      let file_url :=
        base_url +:+ "/a/changes/" +:+ change_id +:+ "/revisions/"
          +:+ revision_id +:+ "/files" in
      file_resp <- get s file_url ;;
      _ <- raise_for_status file_resp ;;
      file_data <-
        decode (loads_files L) "Decode files response failed: " file_resp ;;
      for_each (file_step s file_url) (file_list file_data) []
  end.

End Pipeline.

(** ** The script's entry point *)

(** [os.getenv(key) or default]: the default stands in for a variable that
    is unset and for one that is empty. *)
Definition getenv_or (environ : gmap string string) (key default : string)
    : string :=
  match environ !! key with
  | None | Some "" => default
  | Some value => value
  end.

(** [for block in results: print(block)]: [stdout] is the text written to
    standard output so far. *)
Definition print_all (results : list string) (stdout : string) : string :=
  fold_left (λ out block, (out +:+ block) +:+ nl) results stdout.

(** The [__main__] block. [network auth] is the session that the
    credentials [auth] open. The script yields the requests it made, the
    text it printed, and how it ended: an exception of [Repository_Compare]
    is not caught. *)
Definition main (L : library) (network : string * string → session L)
    (environ : gmap string string) : list string * (string * outcome unit) :=
  let base_url := getenv_or environ "GERRIT_URL" "gerrit_url" in
  let user := getenv_or environ "GERRIT_USER" "your_user" in
  let password := getenv_or environ "GERRIT_PASS" "your_name" in
  let auth := (user, password) in
  let change_id := "change_id" in
  match Repository_Compare L (network auth) base_url change_id with
  | (log, Return results) => (log, (print_all results "", Return tt))
  | (log, Raise e) => (log, ("", Raise e))
  end.

(** ** Notions the statements use *)

Local Close Scope Z_scope.

(** The lines [ls], each one after the prefix [p] and ended by a newline. *)
Definition render_lines (p : string) (ls : list string) : string :=
  foldr (λ line acc, p +:+ line +:+ nl +:+ acc) "" ls.

(** The text that block [i] of [n] adds to the digest. *)
Definition block_text (n i : nat) (blk : block) : string :=
  block_step n "" (i, blk).

(** The three newlines that end a digest. *)
Definition digest_end : string := nl +:+ nl +:+ nl.

(** The newline character. *)
Definition nl_char : ascii := "010"%char.

(** ** The requests of a run and what they answer *)

Section Outline.

Context (L : library).

Definition change_url_of (base_url change_id : string) : string :=
  base_url +:+ "/a/changes/" +:+ change_id +:+ "?o=CURRENT_REVISION".

Definition file_url_of (base_url change_id revision_id : string) : string :=
  base_url +:+ "/a/changes/" +:+ change_id +:+ "/revisions/"
    +:+ revision_id +:+ "/files".

Definition path_url_of (file_url file_path : string) : string :=
  file_url +:+ "/" +:+ quote L file_path +:+ "/diff".

(** The text of a failed decoding, as the three [except] clauses build it. *)
Definition decode_error (what msg : string) (resp : response L) : exn :=
  Exn RuntimeError
    (what +:+ msg +:+ nl +:+ "Raw: " +:+ String.substring 0 200 (text L resp)).

(** The change request succeeds and gives the revision [revision_id]. *)
Inductive change_ok (s : session L) (base_url change_id : string)
  : string → Prop :=
| ChangeOk resp body change_data revision_id :
    s (change_url_of base_url change_id) = Return resp →
    status_error L resp = None →
    strip_gerrit_json (text L resp) = Return body →
    loads_change L body = inr change_data →
    current_revision change_data = Some revision_id →
    revision_id ≠ "" →
    change_ok s base_url change_id revision_id.

(** Both preliminary requests succeed: the files are requested at
    [file_url], and [files] is the list of files to process. *)
Inductive preliminaries (s : session L) (base_url change_id : string)
  : string → list string → Prop :=
| Preliminaries revision_id file_resp body file_data :
    change_ok s base_url change_id revision_id →
    s (file_url_of base_url change_id revision_id) = Return file_resp →
    status_error L file_resp = None →
    strip_gerrit_json (text L file_resp) = Return body →
    loads_files L body = inr file_data →
    preliminaries s base_url change_id
      (file_url_of base_url change_id revision_id) (file_list file_data).

(** A failure of a preliminary step, with the exception it raises. *)
Inductive preliminary_failure (s : session L) (base_url change_id : string)
  : exn → Prop :=
| ChangeGetRaises e :
    s (change_url_of base_url change_id) = Raise e →
    preliminary_failure s base_url change_id e
| ChangeStatusRaises resp msg :
    s (change_url_of base_url change_id) = Return resp →
    status_error L resp = Some msg →
    preliminary_failure s base_url change_id (Exn HTTPError msg)
| ChangeDecodeRaises resp body msg :
    s (change_url_of base_url change_id) = Return resp →
    status_error L resp = None →
    strip_gerrit_json (text L resp) = Return body →
    loads_change L body = inl msg →
    preliminary_failure s base_url change_id
      (decode_error "Decode change response failed: " msg resp)
| NoCurrentRevision resp body change_data :
    s (change_url_of base_url change_id) = Return resp →
    status_error L resp = None →
    strip_gerrit_json (text L resp) = Return body →
    loads_change L body = inr change_data →
    current_revision change_data = None
    ∨ current_revision change_data = Some "" →
    preliminary_failure s base_url change_id
      (Exn RuntimeError
         "No current_revision found. Check change_id or permissions.")
| FilesGetRaises revision_id e :
    change_ok s base_url change_id revision_id →
    s (file_url_of base_url change_id revision_id) = Raise e →
    preliminary_failure s base_url change_id e
| FilesStatusRaises revision_id resp msg :
    change_ok s base_url change_id revision_id →
    s (file_url_of base_url change_id revision_id) = Return resp →
    status_error L resp = Some msg →
    preliminary_failure s base_url change_id (Exn HTTPError msg)
| FilesDecodeRaises revision_id resp body msg :
    change_ok s base_url change_id revision_id →
    s (file_url_of base_url change_id revision_id) = Return resp →
    status_error L resp = None →
    strip_gerrit_json (text L resp) = Return body →
    loads_files L body = inl msg →
    preliminary_failure s base_url change_id
      (decode_error "Decode files response failed: " msg resp).

(** The inline entry that records the exception [e] for [file_path]. *)
Definition error_entry (file_path : string) (e : exn) : string :=
  header file_path
    +:+ match class_of e with
        | HTTPError => "[HTTP error] "
        | _ => "[Error] "
        end
    +:+ str_of e +:+ nl +:+ nl.

(** A failure while the diff of [file_path] is fetched or decoded, with the
    exception it raises. *)
Inductive diff_failure (s : session L) (file_url file_path : string)
  : exn → Prop :=
| DiffGetRaises e :
    s (path_url_of file_url file_path) = Raise e →
    diff_failure s file_url file_path e
| DiffStatusRaises resp msg :
    s (path_url_of file_url file_path) = Return resp →
    status_error L resp = Some msg →
    diff_failure s file_url file_path (Exn HTTPError msg)
| DiffDecodeRaises resp body msg :
    s (path_url_of file_url file_path) = Return resp →
    status_error L resp = None →
    strip_gerrit_json (text L resp) = Return body →
    loads_diff L body = inl msg →
    diff_failure s file_url file_path
      (decode_error ("Decode diff for " +:+ file_path +:+ " failed: ")
         msg resp).

(** What the answer [r] to the diff request of a file that is not ignored
    puts in the results: the digest, or the inline error. *)
Definition entry_of (file_path : string) (r : outcome (response L)) : string :=
  match r with
  | Raise e => error_entry file_path e
  | Return resp =>
      match status_error L resp with
      | Some msg => error_entry file_path (Exn HTTPError msg)
      | None =>
          match strip_gerrit_json (text L resp) with
          | Raise e => error_entry file_path e
          | Return body =>
              match loads_diff L body with
              | inl msg =>
                  error_entry file_path
                    (decode_error
                       ("Decode diff for " +:+ file_path +:+ " failed: ")
                       msg resp)
              | inr d => header file_path +:+ repository_compare d
              end
          end
      end
  end.

(** The entries of one file in the results, and its requests. *)
Definition file_entries (s : session L) (file_url file_path : string)
    : list string :=
  if is_ignored_file file_path then []
  else [entry_of file_path (s (path_url_of file_url file_path))].

Definition file_requests (file_url file_path : string) : list string :=
  if is_ignored_file file_path then [] else [path_url_of file_url file_path].

End Outline.

(** ** Sample inputs *)

Module Sample.

Definition five_lines : list string := ["l1"; "l2"; "l3"; "l4"; "l5"].

Definition three_lines : list string := ["m1"; "m2"; "m3"].

(** [{"ab": ["l1", "l2", "l3", "l4", "l5"]}] *)
Definition context_block : block := {[ "ab" := five_lines ]}.

(** [{"ab": ["m1", "m2", "m3"]}] *)
Definition short_block : block := {[ "ab" := three_lines ]}.

(** [{"a": ["old"], "b": ["new1", "new2"]}] *)
Definition changed_block : block :=
  <[ "a" := ["old"] ]> {[ "b" := ["new1"; "new2"] ]}.

(** A diff whose only block is unchanged context. *)
Definition single_block_diff : diff_json := DiffJson (Some [context_block]).

(** Context, a change, a short context block, and context again. *)
Definition diff : diff_json :=
  DiffJson (Some [context_block; changed_block; short_block; context_block]).

(** [quote] on paths whose only reserved character is the slash. *)
Fixpoint quote_slashes (s : string) : string :=
  match s with
  | "" => ""
  | String c s' =>
      if Ascii.eqb c "/" then "%2F" +:+ quote_slashes s'
      else String c (quote_slashes s')
  end.

(** The decoded files response. *)
Definition file_data : list (string * unit) :=
  [("/COMMIT_MSG", tt); ("src/main.c", tt); ("README.md", tt);
   ("src/gone.c", tt); ("src/bad.c", tt); ("src/down.c", tt)].

(** A stand-in for the libraries: a response is its status code and its
    text, and the decoders know three bodies. *)
Definition lib : library := {|
  response := nat * string;
  text := snd;
  status_error := λ r, if 400 <=? r.1 then Some "404 Client Error" else None;
  quote := quote_slashes;
  file_info := unit;
  loads_change := λ body,
    if String.eqb body "CHANGE" then inr (ChangeInfo (Some "rev1"))
    else inl "Expecting value";
  loads_files := λ body,
    if String.eqb body "FILES" then inr file_data else inl "Expecting value";
  loads_diff := λ body,
    if String.eqb body "DIFF" then inr diff else inl "Expecting value";
|}.

Definition framed (body : string) : string := ")]}'" +:+ nl +:+ body.

Definition base_url : string := "https://gerrit.example".

Definition change_id : string := "42".

Definition file_url : string :=
  "https://gerrit.example/a/changes/42/revisions/rev1/files".

(** A server on which one diff is fine, one is missing (404), one is not
    JSON, and one cannot be reached. *)
Definition server : session lib := λ url,
  if String.eqb url "https://gerrit.example/a/changes/42?o=CURRENT_REVISION"
  then Return (200, framed "CHANGE")
  else if String.eqb url file_url then Return (200, framed "FILES")
  else if String.eqb url (file_url +:+ "/src%2Fmain.c/diff")
  then Return (200, framed "DIFF")
  else if String.eqb url (file_url +:+ "/src%2Fgone.c/diff")
  then Return (404, "Not found")
  else if String.eqb url (file_url +:+ "/src%2Fbad.c/diff")
  then Return (200, "<html>")
  else Raise (Exn OtherError "Connection refused").

(** A server that cannot be reached at all. *)
Definition offline : session lib :=
  λ _, Raise (Exn OtherError "Connection refused").

Definition files : list string :=
  ["src/main.c"; "README.md"; "src/gone.c"; "src/bad.c"; "src/down.c"].

(** What the run on [server] returns. *)
Definition results : list string :=
  [ header "src/main.c" +:+ repository_compare diff;
    error_entry "src/gone.c" (Exn HTTPError "404 Client Error");
    error_entry "src/bad.c"
      (decode_error lib "Decode diff for src/bad.c failed: " "Expecting value"
         (200, "<html>"));
    error_entry "src/down.c" (Exn OtherError "Connection refused") ].

(** A block of nine lines of context, and a diff that holds it between
    two changes. *)
Definition nine_lines : list string :=
  ["n1"; "n2"; "n3"; "n4"; "n5"; "n6"; "n7"; "n8"; "n9"].

Definition long_block : block := {[ "ab" := nine_lines ]}.

(** A block with "ab" that also holds an "a" list. *)
Definition mixed_block : block := <[ "a" := ["old"] ]> context_block.

(** A block with none of the keys the program reads. *)
Definition skip_block : block := {[ "skip" := [] ]}.

(** The libraries again, with a files response that lists documents and
    pictures only. *)
Definition docs_lib : library := {|
  response := nat * string;
  text := snd;
  status_error := λ r, if 400 <=? r.1 then Some "404 Client Error" else None;
  quote := quote_slashes;
  file_info := unit;
  loads_change := λ body,
    if String.eqb body "CHANGE" then inr (ChangeInfo (Some "rev1"))
    else inl "Expecting value";
  loads_files := λ body,
    if String.eqb body "FILES" then
      inr [("/COMMIT_MSG", tt); ("README.md", tt); ("img/logo.PNG", tt)]
    else inl "Expecting value";
  loads_diff := λ body,
    if String.eqb body "DIFF" then inr diff else inl "Expecting value";
|}.

Definition docs_server : session docs_lib := λ url,
  if String.eqb url "https://gerrit.example/a/changes/42?o=CURRENT_REVISION"
  then Return (200, framed "CHANGE")
  else if String.eqb url file_url then Return (200, framed "FILES")
  else Raise (Exn OtherError "Connection refused").

(** The server the script reaches when no variable is set. *)
Definition placeholder_server : session lib := λ url,
  if String.eqb url "gerrit_url/a/changes/change_id?o=CURRENT_REVISION"
  then Return (200, framed "CHANGE")
  else if String.eqb url "gerrit_url/a/changes/change_id/revisions/rev1/files"
  then Return (200, framed "FILES")
  else if String.eqb url
            "gerrit_url/a/changes/change_id/revisions/rev1/files/src%2Fmain.c/diff"
  then Return (200, framed "DIFF")
  else Raise (Exn OtherError "Connection refused").

(** Sessions by credentials: only the placeholder account gets through. *)
Definition network (auth : string * string) : session lib :=
  if decide (auth = ("your_user", "your_name")) then placeholder_server
  else offline.

End Sample.

(** * Facts about strings *)

Lemma Str_app_cons (c : ascii) (s t : string) :
  String c s +:+ t = String c (s +:+ t).
Proof. reflexivity. Qed.

Lemma Str_app_nil_r (s : string) : s +:+ "" = s.
Proof.
  induction s as [|c s IH]; [reflexivity|]. by rewrite Str_app_cons, IH.
Qed.

Lemma Str_app_assoc (s t u : string) : (s +:+ t) +:+ u = s +:+ (t +:+ u).
Proof.
  induction s as [|c s IH]; [reflexivity|]. by rewrite !Str_app_cons, IH.
Qed.

Lemma Str_prefix_app (p s : string) : String.prefix p (p +:+ s) = true.
Proof.
  induction p as [|c p IH]; [by destruct s|].
  rewrite Str_app_cons. cbn. destruct (ascii_dec c c); [exact IH | congruence].
Qed.

Lemma Str_prefix_inv (p s : string) :
  String.prefix p s = true → ∃ r, s = p +:+ r.
Proof.
  revert s. induction p as [|c p IH]; intros s H.
  - by exists s.
  - destruct s as [|d s]; [discriminate|]. cbn in H.
    destruct (ascii_dec c d) as [->|]; [|discriminate].
    destruct (IH _ H) as [r ->]. by exists r.
Qed.

Lemma Str_chars_app (s t : string) :
  Str.chars (s +:+ t) = Str.chars s ++ Str.chars t.
Proof.
  unfold Str.chars. induction s as [|c s IH]; [reflexivity|].
  rewrite Str_app_cons. cbn. by rewrite IH.
Qed.

Lemma Str_concat_cons (s : string) (l : list string) :
  String.concat "" (s :: l) = s +:+ String.concat "" l.
Proof. destruct l; cbn; [by rewrite Str_app_nil_r | reflexivity]. Qed.

(** * Facts about slices *)

Lemma py_slice_last4 {A} (l : list A) :
  py_slice (Some (-4)%Z) None l = drop (length l - 4) l.
Proof.
  unfold py_slice, slice_bound. cbn [from_option].
  replace (Z.to_nat _) with (length l - 4) by (cbn; lia).
  apply take_ge. rewrite length_drop. lia.
Qed.

Lemma py_slice_first4 {A} (l : list A) :
  py_slice (Some 0%Z) (Some 4%Z) l = take 4 l.
Proof.
  unfold py_slice, slice_bound. cbn [from_option Z.ltb Z.compare].
  replace (Z.to_nat (Z.max 0 (Z.min (Z.of_nat (length l)) 0))) with 0 by lia.
  replace (Z.to_nat _) with (min (length l) 4) by lia.
  rewrite Nat.sub_0_r, drop_0.
  destruct (decide (length l ≤ 4)).
  - rewrite !take_ge; [done | lia..].
  - by replace (min (length l) 4) with 4 by lia.
Qed.

(** * The digest as the blocks' texts in order *)

Lemma format_compare_render (ls : list string) (p : string) :
  format_compare ls p = render_lines p ls.
Proof.
  induction ls as [|l ls IH]; [reflexivity|]. unfold format_compare.
  cbn [map]. rewrite Str_concat_cons. unfold format_compare in IH.
  rewrite IH. cbn [render_lines foldr]. by rewrite !Str_app_assoc.
Qed.

Lemma render_lines_app (p : string) (ls ks : list string) :
  render_lines p (ls ++ ks) = render_lines p ls +:+ render_lines p ks.
Proof.
  induction ls as [|l ls IH]; [reflexivity|].
  cbn [app render_lines foldr]. fold (render_lines p (ls ++ ks)).
  fold (render_lines p ls). by rewrite IH, !Str_app_assoc.
Qed.

Lemma block_step_text (n : nat) (output : string) (i : nat) (blk : block) :
  block_step n output (i, blk) = output +:+ block_text n i blk.
Proof.
  unfold block_text, block_step.
  destruct (blk !! "ab") as [ab|].
  - repeat case_match; by rewrite ?Str_app_assoc.
  - destruct (blk !! "a"), (blk !! "b");
      by rewrite ?Str_app_assoc, ?Str_app_nil_r.
Qed.

Lemma fold_block_step (n k : nat) (l : list block) (output : string) :
  fold_left (block_step n) (enumerate_from k l) output
  = output +:+ String.concat "" (imap (λ j, block_text n (k + j)) l).
Proof.
  revert k output. induction l as [|blk l IH]; intros k output.
  - cbn. by rewrite Str_app_nil_r.
  - cbn [enumerate_from fold_left]. rewrite block_step_text, IH.
    rewrite imap_cons, Str_concat_cons, Str_app_assoc, Nat.add_0_r.
    do 3 f_equal. apply imap_ext. intros j x _. unfold compose.
    by replace (S k + j) with (k + S j) by lia.
Qed.

Lemma repository_compare_blocks (d : diff_json) :
  repository_compare d
  = String.concat ""
      (imap (block_text (length (default [] (content d))))
         (default [] (content d)))
    +:+ digest_end.
Proof.
  unfold repository_compare, enumerate. cbv zeta. by rewrite fold_block_step.
Qed.

(** * The diff digest *)

Lemma context_block_text (n i : nat) (blk : block) (ab : list string) :
  blk !! "ab" = Some ab →
  block_text n i blk
  = render_lines ""
      (if decide (i = 0) then drop (length ab - 4) ab
       else if decide (i = n - 1) then take 4 ab
       else take 4 ab ++ drop (length ab - 4) ab).
Proof.
  intros Hab. unfold block_text, block_step. rewrite Hab.
  rewrite !format_compare_render, py_slice_last4, py_slice_first4.
  destruct (decide (i = 0)) as [->|Hi]; [reflexivity|].
  destruct (Z.eqb_spec (Z.of_nat i) 0) as [?|_]; [lia|].
  destruct (decide (i = n - 1)) as [->|Hn].
  - destruct (Z.eqb_spec (Z.of_nat (n - 1)) (Z.of_nat n - 1)) as [_|?];
      [reflexivity | lia].
  - destruct (Z.eqb_spec (Z.of_nat i) (Z.of_nat n - 1)) as [?|_]; [lia|].
    by rewrite render_lines_app.
Qed.

(** C1, as amended: in the digest of a diff, which is the blocks' texts in
    order followed by three newlines, an unchanged-context block (one with
    an "ab" key) is rendered with bounded context. With the first 4 lines
    being the prefix of the block's lines of length min(4, n), and the last
    4 lines their suffix of that length: the first block of the sequence
    gives its last 4 lines, the last block - when it is not also the first -
    its first 4 lines, and every other block its first 4 lines followed by
    its last 4 lines, every line ended by a newline. *)
Theorem context_block_bounded (d : diff_json) (i : nat) (blk : block)
    (ab : list string) :
  default [] (content d) !! i = Some blk →
  blk !! "ab" = Some ab →
  ∃ first4 last4 : list string,
    first4 `prefix_of` ab ∧ length first4 = min 4 (length ab) ∧
    last4 `suffix_of` ab ∧ length last4 = min 4 (length ab) ∧
    block_text (length (default [] (content d))) i blk
    = render_lines ""
        (if decide (i = 0) then last4
         else if decide (i = length (default [] (content d)) - 1) then first4
         else first4 ++ last4) ∧
    repository_compare d
    = String.concat ""
        (imap (block_text (length (default [] (content d))))
           (default [] (content d)))
      +:+ digest_end.
Proof.
  intros _ Hab. exists (take 4 ab), (drop (length ab - 4) ab).
  split; [apply prefix_take|]. split; [apply length_take|].
  split; [apply suffix_drop|]. split; [rewrite length_drop; lia|].
  split; [by apply context_block_text | apply repository_compare_blocks].
Qed.

(** C2: a changed block (one without an "ab" key) is rendered as every line
    of its "a" list after a '-' and then every line of its "b" list after a
    '+', each ended by a newline; an absent key gives no line, and no line of
    either list is left out. *)
Theorem changed_block_rendered (d : diff_json) (i : nat) (blk : block) :
  default [] (content d) !! i = Some blk →
  blk !! "ab" = None →
  block_text (length (default [] (content d))) i blk
  = render_lines "-" (default [] (blk !! "a"))
    +:+ render_lines "+" (default [] (blk !! "b")) ∧
  repository_compare d
  = String.concat ""
      (imap (block_text (length (default [] (content d))))
         (default [] (content d)))
    +:+ digest_end.
Proof.
  intros _ Hab. split; [|apply repository_compare_blocks].
  unfold block_text, block_step. rewrite Hab.
  destruct (blk !! "a"), (blk !! "b"); cbn [default from_option];
    by rewrite ?format_compare_render, ?Str_app_nil_r.
Qed.

(** C9: an unchanged-context block that is neither the first nor the last of
    the content list and holds n lines, 1 <= n < 8, is rendered as
    min(4, n) + min(4, n) lines: its first-four and last-four slices overlap,
    so one line of the block is emitted at two places. *)
Theorem middle_context_block_overlap (d : diff_json) (i : nat) (blk : block)
    (ab : list string) :
  default [] (content d) !! i = Some blk →
  blk !! "ab" = Some ab →
  i ≠ 0 →
  i ≠ length (default [] (content d)) - 1 →
  1 ≤ length ab < 8 →
  ∃ emitted : list string,
    block_text (length (default [] (content d))) i blk
    = render_lines "" emitted ∧
    length emitted = min 4 (length ab) + min 4 (length ab) ∧
    length ab < length emitted ∧
    ∃ k p q : nat,
      p < q < length emitted ∧ is_Some (ab !! k) ∧
      emitted !! p = ab !! k ∧ emitted !! q = ab !! k.
Proof.
  intros _ Hab Hi Hn Hlen.
  exists (take 4 ab ++ drop (length ab - 4) ab).
  assert (Hlength : length (take 4 ab ++ drop (length ab - 4) ab)
                    = min 4 (length ab) + min 4 (length ab)).
  { rewrite length_app, length_take, length_drop. lia. }
  split.
  { rewrite (context_block_text _ _ _ _ Hab).
    destruct (decide (i = 0)); [done|]. by destruct (decide (i = _ - 1)). }
  split; [exact Hlength|]. split; [lia|].
  exists (length ab - 4), (length ab - 4), (min 4 (length ab)).
  split; [lia|]. split; [apply lookup_lt_is_Some; lia|]. split.
  - rewrite lookup_app_l by (rewrite length_take; lia).
    apply lookup_take_lt. lia.
  - rewrite lookup_app_r by (rewrite length_take; lia).
    rewrite length_take, Nat.sub_diag, lookup_drop. f_equal. lia.
Qed.

(** * The response framing *)

Lemma prefix_nl_cons (c : ascii) (s : string) :
  String.prefix nl (String c s) = bool_decide (c = nl_char).
Proof.
  unfold nl, nl_char. cbn [String.prefix].
  destruct (ascii_dec "010" c) as [<-|Hc].
  - by destruct s.
  - rewrite bool_decide_eq_false_2; [done | congruence].
Qed.

Lemma contains_nl (s : string) :
  Str.contains nl s = true ↔ nl_char ∈ Str.chars s.
Proof.
  unfold Str.chars. induction s as [|c s IH]; cbn [Str.contains].
  - cbn. split; [discriminate | by intros ?%elem_of_nil].
  - rewrite prefix_nl_cons, orb_true_iff, IH, bool_decide_eq_true.
    cbn [list_ascii_of_string]. rewrite elem_of_cons.
    split; (intros [Hc|Hs]; [left | by right]); congruence.
Qed.

Lemma cut_nl (before after : string) :
  nl_char ∉ Str.chars before →
  Str.cut nl (before +:+ nl +:+ after) = Some (before, after).
Proof.
  unfold Str.chars. induction before as [|c before IH]; intros Hnl.
  - change ("" +:+ nl +:+ after) with (String nl_char after).
    cbn [Str.cut]. by rewrite prefix_nl_cons, bool_decide_eq_true_2.
  - cbn [list_ascii_of_string] in Hnl. apply not_elem_of_cons in Hnl as [Hc Hnl].
    rewrite Str_app_cons. cbn [Str.cut]. rewrite prefix_nl_cons.
    rewrite bool_decide_eq_false_2 by congruence. by rewrite (IH Hnl).
Qed.

Lemma cut_nl_inv (s : string) :
  nl_char ∈ Str.chars s →
  ∃ before after,
    s = before +:+ nl +:+ after ∧ nl_char ∉ Str.chars before.
Proof.
  unfold Str.chars. induction s as [|c s IH]; cbn [list_ascii_of_string].
  - by intros ?%elem_of_nil.
  - intros Hin. destruct (decide (c = nl_char)) as [->|Hc].
    + exists "", s. split; [reflexivity | apply not_elem_of_nil].
    + apply elem_of_cons in Hin as [?|Hin]; [congruence|].
      destruct (IH Hin) as (before & after & -> & Hnl).
      exists (String c before), after. split; [reflexivity|].
      cbn [list_ascii_of_string]. by apply not_elem_of_cons.
Qed.

Lemma strip_gerrit_json_total (text : string) :
  ∃ body, strip_gerrit_json text = Return body.
Proof.
  unfold strip_gerrit_json. cbv zeta.
  destruct (String.prefix _ text); [|by eexists].
  destruct (Str.contains nl text) eqn:Hc; [|by eexists].
  apply contains_nl, cut_nl_inv in Hc as (before & after & -> & Hnl).
  unfold Str.split1. rewrite (cut_nl _ _ Hnl). by eexists.
Qed.

Lemma decode_body (L : library) {A} (loads : string → string + A)
    (what : string) (resp : response L) (body : string) :
  strip_gerrit_json (text L resp) = Return body →
  decode L loads what resp
  = match loads body with
    | inr data => ret data
    | inl msg => raise (decode_error L what msg resp)
    end.
Proof.
  intros Hbody. unfold decode, lift, bind. rewrite Hbody.
  by destruct (loads body).
Qed.

(** C4: the Gerrit framing is stripped before JSON decoding. Stripping
    never fails and gives a body: the text itself when it does not start
    with the four characters of the marker; otherwise the empty string when
    the text holds no newline, and what follows the first newline when it
    holds one. Each of the program's decodings applies the JSON decoder to
    that body. *)
Theorem strip_gerrit_json_framing (text0 : string) :
  ∃ body : string,
    strip_gerrit_json text0 = Return body ∧
    ((∀ rest, text0 ≠ ")]}'" +:+ rest) → body = text0) ∧
    (∀ rest, text0 = ")]}'" +:+ rest →
       (nl_char ∉ Str.chars text0 → body = "") ∧
       (∀ before after,
          text0 = before +:+ nl +:+ after →
          nl_char ∉ Str.chars before →
          body = after)) ∧
    (∀ (L : library) (A : Type) (loads : string → string + A)
       (what : string) (resp : response L),
       text L resp = text0 →
       decode L loads what resp
       = match loads body with
         | inr data => ret data
         | inl msg => raise (decode_error L what msg resp)
         end).
Proof.
  destruct (strip_gerrit_json_total text0) as [body Hbody].
  exists body. split; [exact Hbody|].
  unfold strip_gerrit_json in Hbody. cbv zeta in Hbody.
  split; [|split].
  - intros Hno. destruct (String.prefix _ text0) eqn:Hp; [|congruence].
    apply Str_prefix_inv in Hp as [rest ->]. by destruct (Hno rest).
  - intros rest Hrest.
    rewrite Hrest, Str_prefix_app, <- Hrest in Hbody. split.
    + intros Hnl. destruct (Str.contains nl text0) eqn:Hc; [|congruence].
      by apply contains_nl in Hc.
    + intros before after Htext Hnl.
      assert (Hc : Str.contains nl text0 = true).
      { apply contains_nl. rewrite Htext, !Str_chars_app.
        apply elem_of_app. right. apply elem_of_app. left. by left. }
      rewrite Hc in Hbody. unfold Str.split1 in Hbody.
      rewrite Htext, (cut_nl _ _ Hnl) in Hbody. cbn in Hbody. congruence.
  - intros L A loads what resp Htext. apply decode_body.
    rewrite Htext. destruct (strip_gerrit_json_total text0) as [body' Hbody'].
    unfold strip_gerrit_json in Hbody'. cbv zeta in Hbody'.
    unfold strip_gerrit_json. cbv zeta. congruence.
Qed.

(** * The pipeline, step by step *)

Section PipelineFacts.

Context (L : library).

Implicit Types (s : session L) (results : list string).

Lemma header_app_nonempty (file_path rest : string) :
  String.eqb (header file_path +:+ rest) "" = false.
Proof. reflexivity. Qed.

Lemma make_message_ignored s (file_url file_path : string) :
  is_ignored_file file_path = true →
  make_message L s file_url file_path = ret "".
Proof. intros Hig. unfold make_message. by rewrite Hig. Qed.

(** A file that is not ignored costs one request, and [make_message]
    returns its digest or raises the exception of the step that failed. *)
Lemma make_message_fetched s (file_url file_path : string) :
  is_ignored_file file_path = false →
  make_message L s file_url file_path
  = ([path_url_of L file_url file_path],
     match s (path_url_of L file_url file_path) with
     | Raise e => Raise e
     | Return resp =>
         match status_error L resp with
         | Some msg => Raise (Exn HTTPError msg)
         | None =>
             match strip_gerrit_json (text L resp) with
             | Raise e => Raise e
             | Return body =>
                 match loads_diff L body with
                 | inl msg =>
                     Raise
                       (decode_error L
                          ("Decode diff for " +:+ file_path +:+ " failed: ")
                          msg resp)
                 | inr d =>
                     Return (header file_path +:+ repository_compare d)
                 end
             end
         end
     end).
Proof.
  intros Hig. unfold make_message. rewrite Hig. cbv zeta.
  fold (path_url_of L file_url file_path).
  unfold get, bind at 1.
  destruct (s (path_url_of L file_url file_path)) as [resp|e]; [|reflexivity].
  unfold raise_for_status.
  destruct (status_error L resp) as [msg|]; [reflexivity|].
  unfold decode, lift, bind, ret, raise.
  destruct (strip_gerrit_json (text L resp)) as [body|e]; [|reflexivity].
  by destruct (loads_diff L body).
Qed.

Lemma file_step_entries s (file_url : string) results (file_path : string) :
  file_step L s file_url results file_path
  = (file_requests L file_url file_path,
     Return (results ++ file_entries L s file_url file_path)).
Proof.
  unfold file_step, file_requests, file_entries.
  destruct (is_ignored_file file_path) eqn:Hig.
  - rewrite make_message_ignored by done. cbn. by rewrite app_nil_r.
  - rewrite make_message_fetched by done. unfold entry_of.
    destruct (s (path_url_of L file_url file_path)) as [resp|e].
    + destruct (status_error L resp) as [msg|]; [reflexivity|].
      destruct (strip_gerrit_json (text L resp)) as [body|e].
      * destruct (loads_diff L body) as [msg|d]; [reflexivity|].
        unfold bind, try_except, ret. by rewrite header_app_nonempty.
      * unfold bind, try_except, ret, error_entry.
        destruct (class_of e); by rewrite ?Str_app_assoc.
    + unfold bind, try_except, ret, error_entry.
      destruct (class_of e); by rewrite ?Str_app_assoc.
Qed.

Lemma for_each_file_step s (file_url : string) (files : list string) results :
  for_each (file_step L s file_url) files results
  = (flat_map (file_requests L file_url) files,
     Return (results ++ flat_map (file_entries L s file_url) files)).
Proof.
  revert results. induction files as [|f files IH]; intros results.
  - cbn. by rewrite app_nil_r.
  - cbn [for_each flat_map]. rewrite file_step_entries. unfold bind.
    rewrite IH. by rewrite app_assoc.
Qed.

End PipelineFacts.

Section RunFacts.

Context (L : library).

Implicit Types (s : session L).

Lemma bind_get_return {A} s (url : string) (resp : response L)
    (k : response L → M A) :
  s url = Return resp →
  bind (get L s url) k = (url :: (k resp).1, (k resp).2).
Proof. intros H. unfold get, bind. rewrite H. by destruct (k resp). Qed.

Lemma bind_get_raise {A} s (url : string) (e : exn) (k : response L → M A) :
  s url = Raise e → bind (get L s url) k = ([url], Raise e).
Proof. intros H. unfold get, bind. by rewrite H. Qed.

Lemma bind_status_ok {A} (resp : response L) (k : unit → M A) :
  status_error L resp = None → bind (raise_for_status L resp) k = k tt.
Proof.
  intros H. unfold raise_for_status, bind, ret. rewrite H. by destruct (k tt).
Qed.

Lemma bind_status_raise {A} (resp : response L) (msg : string)
    (k : unit → M A) :
  status_error L resp = Some msg →
  bind (raise_for_status L resp) k = ([], Raise (Exn HTTPError msg)).
Proof. intros H. unfold raise_for_status, bind, raise. by rewrite H. Qed.

Lemma bind_decode_ok {A B} (loads : string → string + A) (what : string)
    (resp : response L) (body : string) (data : A) (k : A → M B) :
  strip_gerrit_json (text L resp) = Return body →
  loads body = inr data →
  bind (decode L loads what resp) k = k data.
Proof.
  intros Hs Hl. rewrite (decode_body L loads what resp body Hs), Hl.
  unfold bind, ret. by destruct (k data).
Qed.

Lemma bind_decode_raise {A B} (loads : string → string + A) (what : string)
    (resp : response L) (body msg : string) (k : A → M B) :
  strip_gerrit_json (text L resp) = Return body →
  loads body = inl msg →
  bind (decode L loads what resp) k
  = ([], Raise (decode_error L what msg resp)).
Proof.
  intros Hs Hl. by rewrite (decode_body L loads what resp body Hs), Hl.
Qed.

(** One step of a run whose answer is among the hypotheses. *)
Ltac run_step :=
  first
    [ erewrite bind_get_return by eassumption
    | erewrite bind_get_raise by eassumption
    | erewrite bind_status_ok by eassumption
    | erewrite bind_status_raise by eassumption
    | erewrite bind_decode_ok by eassumption
    | erewrite bind_decode_raise by eassumption ].

(** Once the change request has succeeded, the run is the files request
    and what follows it. *)
Lemma Repository_Compare_after_change s (base_url change_id rev : string) :
  change_ok L s base_url change_id rev →
  Repository_Compare L s base_url change_id
  = (let file_url := file_url_of base_url change_id rev in
     let rest :=
       file_resp <- get L s file_url ;;
       _ <- raise_for_status L file_resp ;;
       file_data <-
         decode L (loads_files L) "Decode files response failed: " file_resp ;;
       for_each (file_step L s file_url) (file_list file_data) [] in
     (change_url_of base_url change_id :: rest.1, rest.2)).
Proof.
  intros [resp body change_data revision_id Hget Hst Hstrip Hloads Hrev Hne].
  unfold Repository_Compare. cbv zeta. repeat run_step. rewrite Hrev.
  destruct revision_id as [|c r]; [congruence|]. reflexivity.
Qed.

Lemma Repository_Compare_returns s (base_url change_id file_url : string)
    (files : list string) :
  preliminaries L s base_url change_id file_url files →
  Repository_Compare L s base_url change_id
  = (change_url_of base_url change_id :: file_url
       :: flat_map (file_requests L file_url) files,
     Return (flat_map (file_entries L s file_url) files)).
Proof.
  intros [rev file_resp body file_data Hchange Hget Hst Hstrip Hloads].
  rewrite (Repository_Compare_after_change _ _ _ _ Hchange). cbv zeta.
  repeat run_step. by rewrite for_each_file_step.
Qed.

Lemma Repository_Compare_raises s (base_url change_id : string) (e : exn) :
  preliminary_failure L s base_url change_id e →
  Repository_Compare L s base_url change_id
  = ([change_url_of base_url change_id], Raise e)
  ∨ ∃ rev,
      change_ok L s base_url change_id rev ∧
      Repository_Compare L s base_url change_id
      = ([change_url_of base_url change_id;
          file_url_of base_url change_id rev], Raise e).
Proof.
  intros [e' Hget|resp msg Hget Hst|resp body msg Hget Hst Hstrip Hloads
         |resp body change_data Hget Hst Hstrip Hloads Hrev
         |rev e' Hchange Hget|rev resp msg Hchange Hget Hst
         |rev resp body msg Hchange Hget Hst Hstrip Hloads].
  1-4: left; unfold Repository_Compare; cbv zeta; repeat run_step.
  5-7: right; exists rev; split; [done|];
    rewrite (Repository_Compare_after_change _ _ _ _ Hchange); cbv zeta;
    repeat run_step.
  all: try reflexivity.
  by destruct Hrev as [-> | ->].
Qed.

(** Every run either gets through the preliminary requests or fails in
    one of them. *)
Lemma preliminaries_or_failure s (base_url change_id : string) :
  (∃ file_url files, preliminaries L s base_url change_id file_url files)
  ∨ (∃ e, preliminary_failure L s base_url change_id e).
Proof.
  destruct (s (change_url_of base_url change_id)) as [resp|e] eqn:Hget;
    [|right; eexists; by eapply ChangeGetRaises].
  destruct (status_error L resp) as [msg|] eqn:Hst;
    [right; eexists; by eapply ChangeStatusRaises|].
  destruct (strip_gerrit_json_total (text L resp)) as [body Hstrip].
  destruct (loads_change L body) as [msg|change_data] eqn:Hloads;
    [right; eexists; by eapply ChangeDecodeRaises|].
  destruct (current_revision change_data) as [rev|] eqn:Hrev;
    [|right; eexists; eapply NoCurrentRevision; eauto].
  destruct (decide (rev = "")) as [->|Hne];
    [right; eexists; eapply NoCurrentRevision; eauto|].
  assert (Hchange : change_ok L s base_url change_id rev)
    by (by eapply ChangeOk).
  destruct (s (file_url_of base_url change_id rev)) as [fresp|e] eqn:Hfget;
    [|right; eexists; by eapply FilesGetRaises].
  destruct (status_error L fresp) as [msg|] eqn:Hfst;
    [right; eexists; by eapply FilesStatusRaises|].
  destruct (strip_gerrit_json_total (text L fresp)) as [fbody Hfstrip].
  destruct (loads_files L fbody) as [msg|file_data] eqn:Hfloads;
    [right; eexists; by eapply FilesDecodeRaises|].
  left. eexists _, _. by eapply Preliminaries.
Qed.

End RunFacts.

(** * The file filters *)

Lemma file_list_app {V} (d1 d2 : list (string * V)) :
  file_list (d1 ++ d2) = file_list d1 ++ file_list d2.
Proof. unfold file_list. by rewrite fmap_app, filter_app. Qed.

Lemma not_special (k : string) :
  k ∉ special_keys ↔ k ≠ "/COMMIT_MSG" ∧ k ≠ "/MERGE_LIST".
Proof.
  unfold special_keys. by rewrite not_elem_of_union, !not_elem_of_singleton.
Qed.

(** C5: of the keys of a files response, exactly "/COMMIT_MSG" and
    "/MERGE_LIST" are removed from the list of files to process: a key is in
    the list if and only if it is a key of the response other than these
    two, the list keeps the order of the response, and wherever a key stands
    in the response it is dropped when it is one of the two and kept in its
    place otherwise. *)
Theorem special_keys_removed {V} (file_data : list (string * V)) :
  (∀ k, k ∈ file_list file_data
        ↔ k ∈ file_data.*1 ∧ k ≠ "/COMMIT_MSG" ∧ k ≠ "/MERGE_LIST") ∧
  file_list file_data `sublist_of` file_data.*1 ∧
  (∀ d1 k v d2,
     file_data = d1 ++ (k, v) :: d2 →
     file_list file_data
     = file_list d1
       ++ (if decide (k = "/COMMIT_MSG" ∨ k = "/MERGE_LIST") then []
           else [k])
       ++ file_list d2).
Proof.
  split; [|split].
  - intros k. unfold file_list. rewrite list_elem_of_filter, not_special.
    tauto.
  - apply sublist_filter.
  - intros d1 k v d2 ->. rewrite file_list_app. f_equal.
    change ((k, v) :: d2) with ([(k, v)] ++ d2). rewrite file_list_app.
    f_equal. unfold file_list. cbn [fmap list_fmap fst].
    destruct (decide (k = "/COMMIT_MSG" ∨ k = "/MERGE_LIST")) as [Hk|Hk].
    + rewrite filter_cons_False; [done|]. rewrite not_special. tauto.
    + rewrite filter_cons_True; [done|]. rewrite not_special. tauto.
Qed.

Lemma is_ignored_file_ext (path : string) :
  is_ignored_file path = true
  ↔ Str.lower (splitext path).2
    ∈ [".so"; ".a"; ".md"; ".png"; ".jpg"; ".jpeg"; ".gif"; ".zip"; ".tar";
       ".gz"; ".bz2"].
Proof.
  unfold is_ignored_file. destruct (splitext path) as [root ext]. cbn [snd].
  rewrite bool_decide_eq_true. unfold ext_list.
  rewrite !elem_of_union, !elem_of_singleton, !elem_of_cons, elem_of_nil.
  tauto.
Qed.

Lemma flat_map_file_requests (L : library) (file_url : string)
    (files : list string) :
  flat_map (file_requests L file_url) files
  = map (path_url_of L file_url)
      (filter (λ f, is_ignored_file f = false) files).
Proof.
  induction files as [|f files IH]; [reflexivity|].
  cbn [flat_map]. unfold file_requests at 1.
  destruct (is_ignored_file f) eqn:Hig.
  - rewrite filter_cons_False by congruence. exact IH.
  - rewrite filter_cons_True by done. cbn. by rewrite IH.
Qed.

Lemma flat_map_groups {A B} (f : A → list B) (l : list A) :
  flat_map f l = concat (map f l) ∧ Forall2 (λ x g, g = f x) l (map f l).
Proof.
  split; [apply flat_map_concat_map|].
  induction l as [|x l IH]; constructor; [reflexivity | exact IH].
Qed.

(** * The run *)

Section Run.

Context (L : library).

Implicit Types (s : session L).

Lemma header_begins (file_path rest : string) :
  header file_path +:+ rest
  = "======== file: " +:+ file_path +:+ ((nl +:+ nl) +:+ rest).
Proof. unfold header. by rewrite !Str_app_assoc. Qed.

Lemma entry_of_begins (file_path : string) (r : outcome (response L)) :
  ∃ rest, entry_of L file_path r = "======== file: " +:+ file_path +:+ rest.
Proof.
  unfold entry_of, error_entry.
  repeat case_match; rewrite header_begins; by eexists.
Qed.

Lemma file_entries_failure s (file_url file_path : string) (e : exn) :
  is_ignored_file file_path = false →
  diff_failure L s file_url file_path e →
  file_entries L s file_url file_path = [error_entry file_path e].
Proof.
  intros Hig Hfail. unfold file_entries, entry_of. rewrite Hig.
  destruct Hfail as [e Hget|resp msg Hget Hst|resp body msg Hget Hst Hs Hl];
    rewrite Hget; [done|..]; rewrite Hst; [done|]. by rewrite Hs, Hl.
Qed.

Lemma file_entries_session s s' (file_url file_path : string) :
  s' (path_url_of L file_url file_path) = s (path_url_of L file_url file_path) →
  file_entries L s' file_url file_path = file_entries L s file_url file_path.
Proof. intros H. unfold file_entries. by rewrite H. Qed.

Lemma entries_headed s (file_url : string) (files : list string) :
  Forall2 (λ f r, r ≠ "" ∧ ∃ rest, r = "======== file: " +:+ f +:+ rest)
    (filter (λ f, is_ignored_file f = false) files)
    (flat_map (file_entries L s file_url) files).
Proof.
  induction files as [|f files IH]; [constructor|].
  cbn [flat_map]. unfold file_entries at 1.
  destruct (is_ignored_file f) eqn:Hig.
  - rewrite filter_cons_False by congruence. exact IH.
  - rewrite filter_cons_True by done. constructor; [|exact IH].
    destruct (entry_of_begins f (s (path_url_of L file_url f))) as [rest ->].
    split; [discriminate | by exists rest].
Qed.

(** C3: once the list of files is known, a failure while the diff of one
    file is fetched or decoded - the request raising, an HTTP error status,
    or a body that is not JSON - does not abort the run. The run returns the
    groups of entries of the files in order; the group of a failing file is
    the one inline error entry that names the file; and on any other server
    that gives the same list of files, the group of every file whose diff
    request is answered the same is the same. *)
Theorem diff_failures_isolated s (base_url change_id file_url : string)
    (files : list string) :
  preliminaries L s base_url change_id file_url files →
  ∃ groups : list (list string),
    (Repository_Compare L s base_url change_id).2 = Return (concat groups) ∧
    Forall2 (λ f group, group = file_entries L s file_url f) files groups ∧
    (∀ f e,
       is_ignored_file f = false →
       diff_failure L s file_url f e →
       file_entries L s file_url f = [error_entry f e] ∧
       ∃ rest, error_entry f e = "======== file: " +:+ f +:+ rest) ∧
    (∀ s' : session L,
       preliminaries L s' base_url change_id file_url files →
       ∃ groups' : list (list string),
         (Repository_Compare L s' base_url change_id).2
         = Return (concat groups') ∧
         ∀ i f,
           files !! i = Some f →
           s' (path_url_of L file_url f) = s (path_url_of L file_url f) →
           groups' !! i = groups !! i).
Proof.
  intros Hpre. exists (map (file_entries L s file_url) files).
  destruct (flat_map_groups (file_entries L s file_url) files) as [Hcat Hall].
  split; [|split; [exact Hall|split]].
  - rewrite (Repository_Compare_returns L s _ _ _ _ Hpre). cbn [snd].
    by rewrite Hcat.
  - intros f e Hig Hfail. split; [by apply file_entries_failure|].
    unfold error_entry. rewrite header_begins. by eexists.
  - intros s' Hpre'. exists (map (file_entries L s' file_url) files). split.
    + rewrite (Repository_Compare_returns L s' _ _ _ _ Hpre'). cbn [snd].
      by rewrite flat_map_concat_map.
    + intros i f Hi Hsame.
      change (map ?g files) with (g <$> files).
      rewrite !list_lookup_fmap, Hi. cbn.
      by rewrite (file_entries_session s s' file_url f Hsame).
Qed.

(** C6: a file is ignored exactly when its extension ([os.path.splitext]),
    lowercased, is one of the eleven of the list. In a run that gets to the
    files, the diff requests are those of the files that are not ignored,
    one each and in order; an ignored file has no entry in the results, and
    a file that is not ignored has the one entry its diff request leads
    to. *)
Theorem ignored_files_skipped s (base_url change_id file_url : string)
    (files : list string) :
  preliminaries L s base_url change_id file_url files →
  (∀ path,
     is_ignored_file path = true
     ↔ Str.lower (splitext path).2
       ∈ [".so"; ".a"; ".md"; ".png"; ".jpg"; ".jpeg"; ".gif"; ".zip";
          ".tar"; ".gz"; ".bz2"]) ∧
  (Repository_Compare L s base_url change_id).1
  = change_url_of base_url change_id :: file_url
      :: map (path_url_of L file_url)
           (filter (λ f, is_ignored_file f = false) files) ∧
  ∃ groups : list (list string),
    (Repository_Compare L s base_url change_id).2 = Return (concat groups) ∧
    Forall2
      (λ f group,
         if is_ignored_file f then group = []
         else group = [entry_of L f (s (path_url_of L file_url f))])
      files groups.
Proof.
  intros Hpre. split; [exact is_ignored_file_ext|].
  rewrite (Repository_Compare_returns L s _ _ _ _ Hpre). cbn [fst snd].
  split; [by rewrite flat_map_file_requests|].
  exists (map (file_entries L s file_url) files).
  split; [by rewrite flat_map_concat_map|].
  clear Hpre. induction files as [|f files' IH]; constructor; [|exact IH].
  unfold file_entries. by destruct (is_ignored_file f).
Qed.

(** Whether the change request succeeds is settled by the answers of the
    server. *)
Lemma change_ok_decided s (base_url change_id : string) :
  (∃ rev, change_ok L s base_url change_id rev)
  ∨ (∀ rev, ¬ change_ok L s base_url change_id rev).
Proof.
  destruct (preliminaries_or_failure L s base_url change_id)
    as [(file_url & files & Hpre)|[e Hfail]].
  - left. destruct Hpre as [rev ? ? ? Hchange _ _ _ _]. by exists rev.
  - destruct Hfail as [e Hget|resp msg Hget Hst|resp body msg Hget Hst Hs Hl
                      |resp body change_data Hget Hst Hs Hl Hrev
                      |rev e Hchange _|rev resp msg Hchange _ _
                      |rev resp body msg Hchange _ _ _ _];
      [right..|left; by exists rev|left; by exists rev|left; by exists rev];
      intros rev [resp' body' change_data' rev' Hget' Hst' Hs' Hl' Hrev' Hne'].
    + congruence.
    + congruence.
    + congruence.
    + destruct Hrev as [Hrev|Hrev]; congruence.
Qed.

(** After a change request that succeeded, the next request is the files
    request of the revision read, and all later requests are diff requests
    under its URL. *)
Lemma requests_after_change s (base_url change_id rev : string) :
  change_ok L s base_url change_id rev →
  ∃ rest out,
    Repository_Compare L s base_url change_id
    = (change_url_of base_url change_id
         :: file_url_of base_url change_id rev :: rest, out) ∧
    ∃ fs, rest = map (path_url_of L (file_url_of base_url change_id rev)) fs.
Proof.
  intros Hchange.
  rewrite (Repository_Compare_after_change L s _ _ _ Hchange). cbv zeta.
  destruct (s (file_url_of base_url change_id rev)) as [fresp|e] eqn:Hget.
  - rewrite (bind_get_return L _ _ _ _ Hget). cbn [fst snd].
    destruct (status_error L fresp) as [msg|] eqn:Hst.
    + rewrite (bind_status_raise L _ _ _ Hst).
      exists [], (Raise (Exn HTTPError msg)). split; [reflexivity | by exists []].
    + rewrite (bind_status_ok L _ _ Hst).
      destruct (strip_gerrit_json_total (text L fresp)) as [body Hstrip].
      destruct (loads_files L body) as [msg|file_data] eqn:Hloads.
      * rewrite (bind_decode_raise L _ _ _ _ _ _ Hstrip Hloads).
        eexists [], _. split; [reflexivity | by exists []].
      * rewrite (bind_decode_ok L _ _ _ _ _ _ Hstrip Hloads).
        rewrite for_each_file_step, flat_map_file_requests.
        eexists _, _. split; [reflexivity | by eexists].
  - rewrite (bind_get_raise L _ _ _ _ Hget).
    exists [], (Raise e). split; [reflexivity | by exists []].
Qed.

(** When the change request does not succeed, it is the only request. *)
Lemma requests_without_change s (base_url change_id : string) :
  (∀ rev, ¬ change_ok L s base_url change_id rev) →
  ∃ e,
    Repository_Compare L s base_url change_id
    = ([change_url_of base_url change_id], Raise e).
Proof.
  intros Hno.
  destruct (preliminaries_or_failure L s base_url change_id)
    as [(file_url & files & Hpre)|[e Hfail]].
  - destruct Hpre as [rev ? ? ? Hchange _ _ _ _]. by destruct (Hno rev).
  - destruct (Repository_Compare_raises L s _ _ _ Hfail)
      as [Hrun|(rev & Hchange & _)]; [by exists e | by destruct (Hno rev)].
Qed.

(** C7: every run proceeds in a fixed order. Its first request is the
    change request. When that request succeeds - the response is decoded and
    a non-empty current_revision is read from it - the second request is made
    and is the files request built from that revision, and every later
    request is a diff request under the URL of the files request. When the
    change request does not succeed, it stays the only request and the run
    raises: the files request is never made. One of the two is always the
    case. *)
Theorem change_then_files s (base_url change_id : string) :
  (∃ rest out,
     Repository_Compare L s base_url change_id
     = (change_url_of base_url change_id :: rest, out)) ∧
  (∀ rev,
     change_ok L s base_url change_id rev →
     ∃ rest out,
       Repository_Compare L s base_url change_id
       = (change_url_of base_url change_id
            :: file_url_of base_url change_id rev :: rest, out) ∧
       ∃ fs,
         rest = map (path_url_of L (file_url_of base_url change_id rev)) fs) ∧
  ((∀ rev, ¬ change_ok L s base_url change_id rev) →
   ∃ e,
     Repository_Compare L s base_url change_id
     = ([change_url_of base_url change_id], Raise e)) ∧
  ((∃ rev, change_ok L s base_url change_id rev)
   ∨ (∀ rev, ¬ change_ok L s base_url change_id rev)).
Proof.
  split; [|split; [|split]].
  - destruct (change_ok_decided s base_url change_id) as [[rev Hchange]|Hno].
    + destruct (requests_after_change s _ _ _ Hchange)
        as (rest & out & -> & _). by eexists _, _.
    + destruct (requests_without_change s _ _ Hno) as [e ->].
      by eexists _, _.
  - apply requests_after_change.
  - apply requests_without_change.
  - apply change_ok_decided.
Qed.

(** C8: the run raises the exception [e], and so returns no results, if
    and only if a preliminary step fails with [e]: the change request or the
    files request raising or answering an HTTP error status, the decoding of
    either response, or a missing or empty current_revision. No failure
    inside the loop over the files makes the run raise. *)
Theorem preliminary_failure_raises s (base_url change_id : string) (e : exn) :
  preliminary_failure L s base_url change_id e
  ↔ ∃ log, Repository_Compare L s base_url change_id = (log, Raise e).
Proof.
  split.
  - intros Hfail.
    destruct (Repository_Compare_raises L s _ _ _ Hfail)
      as [Hrun|(rev & _ & Hrun)]; by eexists.
  - intros [log Hrun].
    destruct (preliminaries_or_failure L s base_url change_id)
      as [(file_url & files & Hpre)|[e' Hfail]].
    + rewrite (Repository_Compare_returns L s _ _ _ _ Hpre) in Hrun.
      congruence.
    + destruct (Repository_Compare_raises L s _ _ _ Hfail)
        as [Hrun'|(rev & _ & Hrun')];
        rewrite Hrun' in Hrun; by simplify_eq.
Qed.

(** C10: when a run returns, every string of the list is non-empty and
    begins with "======== file: " and the path of its file, and the strings
    stand for the keys of the files response that pass both filters, one
    each and in the order of the response. *)
Theorem results_headed_in_order s (base_url change_id : string)
    (results : list string) :
  (Repository_Compare L s base_url change_id).2 = Return results →
  ∃ rev file_resp body file_data,
    change_ok L s base_url change_id rev ∧
    s (file_url_of base_url change_id rev) = Return file_resp ∧
    strip_gerrit_json (text L file_resp) = Return body ∧
    loads_files L body = inr file_data ∧
    Forall2 (λ f r, r ≠ "" ∧ ∃ rest, r = "======== file: " +:+ f +:+ rest)
      (filter (λ f, is_ignored_file f = false) (file_list file_data))
      results.
Proof.
  intros Hrun.
  destruct (preliminaries_or_failure L s base_url change_id)
    as [(file_url & files & Hpre)|[e Hfail]].
  - rewrite (Repository_Compare_returns L s _ _ _ _ Hpre) in Hrun.
    cbn [snd] in Hrun. injection Hrun as <-.
    destruct Hpre as [rev file_resp body file_data Hchange Hget _ Hs Hl].
    exists rev, file_resp, body, file_data.
    repeat (split; [done|]). apply entries_headed.
  - destruct (Repository_Compare_raises L s _ _ _ Hfail)
      as [Hrun'|(rev & _ & Hrun')];
      rewrite Hrun' in Hrun; discriminate.
Qed.

End Run.

(** * The statements on the sample inputs *)

Example sample_digest :
  repository_compare Sample.diff
  = render_lines "" ["l2"; "l3"; "l4"; "l5"]
    +:+ render_lines "-" ["old"] +:+ render_lines "+" ["new1"; "new2"]
    +:+ render_lines "" ["m1"; "m2"; "m3"; "m1"; "m2"; "m3"]
    +:+ render_lines "" ["l1"; "l2"; "l3"; "l4"]
    +:+ digest_end.
Proof. reflexivity. Qed.

Example sample_stripped :
  strip_gerrit_json (Sample.framed "CHANGE") = Return "CHANGE"
  ∧ strip_gerrit_json ")]}'" = Return ""
  ∧ strip_gerrit_json "{}" = Return "{}".
Proof. repeat split. Qed.

Example sample_ignored :
  map is_ignored_file
    ["lib/libz.so"; "README.MD"; "pkg.tar.gz"; "src/main.c"; ".md";
     "docs/.gif"; "a.so.1"]
  = [true; true; true; false; false; false; false].
Proof. vm_compute. reflexivity. Qed.

Example sample_file_list : file_list Sample.file_data = Sample.files.
Proof. vm_compute. reflexivity. Qed.

Example sample_run :
  Repository_Compare Sample.lib Sample.server Sample.base_url Sample.change_id
  = (["https://gerrit.example/a/changes/42?o=CURRENT_REVISION";
      "https://gerrit.example/a/changes/42/revisions/rev1/files";
      Sample.file_url +:+ "/src%2Fmain.c/diff";
      Sample.file_url +:+ "/src%2Fgone.c/diff";
      Sample.file_url +:+ "/src%2Fbad.c/diff";
      Sample.file_url +:+ "/src%2Fdown.c/diff"],
     Return Sample.results).
Proof. vm_compute. reflexivity. Qed.

Lemma sample_change_ok :
  change_ok Sample.lib Sample.server Sample.base_url Sample.change_id "rev1".
Proof.
  by apply (ChangeOk Sample.lib Sample.server _ _
              (200, Sample.framed "CHANGE") "CHANGE"
              (ChangeInfo (Some "rev1")) "rev1").
Qed.

Lemma sample_preliminaries :
  preliminaries Sample.lib Sample.server Sample.base_url Sample.change_id
    Sample.file_url Sample.files.
Proof.
  exact (Preliminaries Sample.lib Sample.server _ _ "rev1"
           (200, Sample.framed "FILES") "FILES" Sample.file_data
           sample_change_ok eq_refl eq_refl eq_refl eq_refl).
Qed.

(** C1, as stated, fails on a diff with one block: the block is the last
    of the sequence, and the digest holds its last four lines, not its first
    four. *)
Lemma single_block_counterexample :
  default [] (content Sample.single_block_diff) !! 0
  = Some Sample.context_block ∧
  Sample.context_block !! "ab" = Some Sample.five_lines ∧
  0 = length (default [] (content Sample.single_block_diff)) - 1 ∧
  block_text 1 0 Sample.context_block
  = render_lines "" ["l2"; "l3"; "l4"; "l5"] ∧
  block_text 1 0 Sample.context_block
  ≠ render_lines "" (take 4 Sample.five_lines) ∧
  repository_compare Sample.single_block_diff
  = render_lines "" ["l2"; "l3"; "l4"; "l5"] +:+ digest_end.
Proof. repeat split. vm_compute. discriminate. Qed.

(** The last of the four blocks of the sample diff gives its first four
    lines. *)
Lemma context_block_bounded_witness :
  default [] (content Sample.diff) !! 3 = Some Sample.context_block ∧
  Sample.context_block !! "ab" = Some Sample.five_lines ∧
  ∃ first4 last4 : list string,
    first4 `prefix_of` Sample.five_lines ∧
    length first4 = min 4 (length Sample.five_lines) ∧
    last4 `suffix_of` Sample.five_lines ∧
    length last4 = min 4 (length Sample.five_lines) ∧
    block_text (length (default [] (content Sample.diff))) 3
      Sample.context_block
    = render_lines ""
        (if decide (3 = 0) then last4
         else if decide (3 = length (default [] (content Sample.diff)) - 1)
              then first4
         else first4 ++ last4) ∧
    repository_compare Sample.diff
    = String.concat ""
        (imap (block_text (length (default [] (content Sample.diff))))
           (default [] (content Sample.diff)))
      +:+ digest_end.
Proof.
  split; [reflexivity|]. split; [reflexivity|].
  apply (context_block_bounded Sample.diff 3 Sample.context_block
           Sample.five_lines); reflexivity.
Defined.

(** The second block of the sample diff is a change. *)
Lemma changed_block_rendered_witness :
  default [] (content Sample.diff) !! 1 = Some Sample.changed_block ∧
  Sample.changed_block !! "ab" = None ∧
  block_text (length (default [] (content Sample.diff))) 1
    Sample.changed_block
  = render_lines "-" (default [] (Sample.changed_block !! "a"))
    +:+ render_lines "+" (default [] (Sample.changed_block !! "b")) ∧
  repository_compare Sample.diff
  = String.concat ""
      (imap (block_text (length (default [] (content Sample.diff))))
         (default [] (content Sample.diff)))
    +:+ digest_end.
Proof.
  split; [reflexivity|]. split; [reflexivity|].
  apply (changed_block_rendered Sample.diff 1 Sample.changed_block);
    reflexivity.
Defined.

(** The third block of the sample diff holds three lines of context. *)
Lemma middle_context_block_overlap_witness :
  default [] (content Sample.diff) !! 2 = Some Sample.short_block ∧
  Sample.short_block !! "ab" = Some Sample.three_lines ∧
  ∃ emitted : list string,
    block_text (length (default [] (content Sample.diff))) 2
      Sample.short_block
    = render_lines "" emitted ∧
    length emitted
    = min 4 (length Sample.three_lines) + min 4 (length Sample.three_lines) ∧
    length Sample.three_lines < length emitted ∧
    ∃ k p q : nat,
      p < q < length emitted ∧ is_Some (Sample.three_lines !! k) ∧
      emitted !! p = Sample.three_lines !! k ∧
      emitted !! q = Sample.three_lines !! k.
Proof.
  split; [reflexivity|]. split; [reflexivity|].
  apply (middle_context_block_overlap Sample.diff 2 Sample.short_block
           Sample.three_lines);
    [reflexivity | reflexivity | discriminate | discriminate | cbn; lia].
Defined.

(** The run on the sample server, where three diffs fail. *)
Lemma diff_failures_isolated_witness :
  ∃ groups : list (list string),
    (Repository_Compare Sample.lib Sample.server Sample.base_url
       Sample.change_id).2
    = Return (concat groups) ∧
    Forall2
      (λ f group,
         group = file_entries Sample.lib Sample.server Sample.file_url f)
      Sample.files groups ∧
    (∀ f e,
       is_ignored_file f = false →
       diff_failure Sample.lib Sample.server Sample.file_url f e →
       file_entries Sample.lib Sample.server Sample.file_url f
       = [error_entry f e] ∧
       ∃ rest, error_entry f e = "======== file: " +:+ f +:+ rest) ∧
    (∀ s' : session Sample.lib,
       preliminaries Sample.lib s' Sample.base_url Sample.change_id
         Sample.file_url Sample.files →
       ∃ groups' : list (list string),
         (Repository_Compare Sample.lib s' Sample.base_url
            Sample.change_id).2
         = Return (concat groups') ∧
         ∀ i f,
           Sample.files !! i = Some f →
           s' (path_url_of Sample.lib Sample.file_url f)
           = Sample.server (path_url_of Sample.lib Sample.file_url f) →
           groups' !! i = groups !! i).
Proof.
  exact (diff_failures_isolated Sample.lib Sample.server Sample.base_url
           Sample.change_id Sample.file_url Sample.files
           sample_preliminaries).
Defined.

(** The run on the sample server, whose files hold a README.md. *)
Lemma ignored_files_skipped_witness :
  (∀ path,
     is_ignored_file path = true
     ↔ Str.lower (splitext path).2
       ∈ [".so"; ".a"; ".md"; ".png"; ".jpg"; ".jpeg"; ".gif"; ".zip";
          ".tar"; ".gz"; ".bz2"]) ∧
  (Repository_Compare Sample.lib Sample.server Sample.base_url
     Sample.change_id).1
  = change_url_of Sample.base_url Sample.change_id :: Sample.file_url
      :: map (path_url_of Sample.lib Sample.file_url)
           (filter (λ f, is_ignored_file f = false) Sample.files) ∧
  ∃ groups : list (list string),
    (Repository_Compare Sample.lib Sample.server Sample.base_url
       Sample.change_id).2
    = Return (concat groups) ∧
    Forall2
      (λ f group,
         if is_ignored_file f then group = []
         else group
              = [entry_of Sample.lib f
                   (Sample.server (path_url_of Sample.lib Sample.file_url f))])
      Sample.files groups.
Proof.
  exact (ignored_files_skipped Sample.lib Sample.server Sample.base_url
           Sample.change_id Sample.file_url Sample.files
           sample_preliminaries).
Defined.

(** The run on the server that cannot be reached. *)
Lemma preliminary_failure_raises_witness :
  Sample.offline (change_url_of Sample.base_url Sample.change_id)
  = Raise (Exn OtherError "Connection refused") ∧
  ∃ log,
    Repository_Compare Sample.lib Sample.offline Sample.base_url
      Sample.change_id
    = (log, Raise (Exn OtherError "Connection refused")).
Proof.
  split; [reflexivity|].
  apply (proj1 (preliminary_failure_raises Sample.lib Sample.offline
                  Sample.base_url Sample.change_id
                  (Exn OtherError "Connection refused"))).
  apply ChangeGetRaises. reflexivity.
Defined.

(** The four entries of the run on the sample server. *)
Lemma results_headed_in_order_witness :
  (Repository_Compare Sample.lib Sample.server Sample.base_url
     Sample.change_id).2
  = Return Sample.results ∧
  ∃ rev file_resp body file_data,
    change_ok Sample.lib Sample.server Sample.base_url Sample.change_id rev ∧
    Sample.server (file_url_of Sample.base_url Sample.change_id rev)
    = Return file_resp ∧
    strip_gerrit_json (text Sample.lib file_resp) = Return body ∧
    loads_files Sample.lib body = inr file_data ∧
    Forall2 (λ f r, r ≠ "" ∧ ∃ rest, r = "======== file: " +:+ f +:+ rest)
      (filter (λ f, is_ignored_file f = false) (file_list file_data))
      Sample.results.
Proof.
  split; [vm_compute; reflexivity|].
  apply (results_headed_in_order Sample.lib Sample.server Sample.base_url
           Sample.change_id Sample.results).
  vm_compute. reflexivity.
Defined.

(** On the sample server the change request succeeds and the files of
    revision rev1 are requested next; on the server that cannot be reached
    the change request stays the only request. *)
Lemma change_then_files_witness :
  (∃ rest out,
     Repository_Compare Sample.lib Sample.server Sample.base_url
       Sample.change_id
     = (change_url_of Sample.base_url Sample.change_id
          :: file_url_of Sample.base_url Sample.change_id "rev1" :: rest,
        out) ∧
     ∃ fs,
       rest
       = map
           (path_url_of Sample.lib
              (file_url_of Sample.base_url Sample.change_id "rev1"))
           fs) ∧
  (∃ e,
     Repository_Compare Sample.lib Sample.offline Sample.base_url
       Sample.change_id
     = ([change_url_of Sample.base_url Sample.change_id], Raise e)).
Proof.
  split.
  - apply (proj1 (proj2 (change_then_files Sample.lib Sample.server
                           Sample.base_url Sample.change_id)) "rev1").
    by apply (ChangeOk Sample.lib Sample.server _ _
                (200, Sample.framed "CHANGE") "CHANGE"
                (ChangeInfo (Some "rev1")) "rev1").
  - apply (proj1 (proj2 (proj2 (change_then_files Sample.lib Sample.offline
                                  Sample.base_url Sample.change_id)))).
    intros rev [resp body change_data rev' Hget _ _ _ _ _].
    discriminate Hget.
Defined.

(** * Further properties of the response framing *)

Lemma Str_length_app (s t : string) :
  String.length (s +:+ t) = String.length s + String.length t.
Proof.
  induction s as [|c s IH]; [reflexivity|]. rewrite Str_app_cons. cbn.
  by rewrite IH.
Qed.

Lemma marker_no_newline (before rest after : string) :
  ")]}'" +:+ rest = before +:+ nl +:+ after →
  nl_char ∉ Str.chars before →
  ∃ r, before = ")]}'" +:+ r.
Proof.
  intros Heq Hnl.
  destruct before as [|c1 [|c2 [|c3 [|c4 before]]]];
    rewrite ?Str_app_cons in Heq; unfold nl in Heq;
    rewrite ?Str_app_cons in Heq; try discriminate.
  injection Heq as <- <- <- <- _. by exists before.
Qed.

(** X1: stripping only removes a leading part of the text. The body is
    always a suffix of the text, and what is removed is either nothing or a
    part that starts with the marker. *)
Theorem strip_gerrit_json_suffix (text0 : string) :
  ∃ dropped body : string,
    strip_gerrit_json text0 = Return body ∧
    text0 = dropped +:+ body ∧
    String.length body ≤ String.length text0 ∧
    (dropped = "" ∨ ∃ r, dropped = ")]}'" +:+ r).
Proof.
  assert (Hlen : ∀ dropped body : string,
            text0 = dropped +:+ body →
            String.length body ≤ String.length text0).
  { intros dropped body ->. rewrite Str_length_app. lia. }
  unfold strip_gerrit_json. cbv zeta.
  destruct (String.prefix _ text0) eqn:Hp.
  - apply Str_prefix_inv in Hp as [rest Hrest].
    destruct (Str.contains nl text0) eqn:Hc.
    + apply contains_nl, cut_nl_inv in Hc as (before & after & Htext & Hnl).
      exists (before +:+ nl), after. unfold Str.split1.
      rewrite Htext at 1. rewrite (cut_nl _ _ Hnl).
      assert (Hsplit : text0 = (before +:+ nl) +:+ after)
        by (by rewrite Str_app_assoc).
      split; [reflexivity|]. split; [exact Hsplit|].
      split; [exact (Hlen _ _ Hsplit)|]. right.
      rewrite Hrest in Htext.
      destruct (marker_no_newline _ _ _ Htext Hnl) as [r ->].
      exists (r +:+ nl). by rewrite Str_app_assoc.
    + exists text0, "". rewrite Str_app_nil_r.
      split; [reflexivity|]. split; [reflexivity|]. split; [cbn; lia|].
      right. by exists rest.
  - exists "", text0. split; [reflexivity|]. split; [reflexivity|].
    split; [lia | by left].
Qed.

(** X2: stripping undoes Gerrit's framing - the marker, a newline, then
    the payload - whatever the payload holds, and a payload that does not
    itself start with the marker is left as it is, so stripping it a second
    time changes nothing. *)
Theorem strip_gerrit_json_unframes (payload : string) :
  strip_gerrit_json (")]}'" +:+ nl +:+ payload) = Return payload ∧
  ((∀ r, payload ≠ ")]}'" +:+ r) → strip_gerrit_json payload = Return payload).
Proof.
  split.
  - unfold strip_gerrit_json. cbv zeta. rewrite Str_prefix_app.
    assert (Hnl : nl_char ∉ Str.chars ")]}'").
    { cbn. rewrite !not_elem_of_cons. repeat split; try discriminate.
      apply not_elem_of_nil. }
    assert (Hc : Str.contains nl (")]}'" +:+ nl +:+ payload) = true).
    { apply contains_nl. rewrite !Str_chars_app. apply elem_of_app. right.
      apply elem_of_app. left. by left. }
    rewrite Hc. unfold Str.split1. by rewrite (cut_nl _ _ Hnl).
  - intros Hno. unfold strip_gerrit_json. cbv zeta.
    destruct (String.prefix _ payload) eqn:Hp; [|reflexivity].
    apply Str_prefix_inv in Hp as [r ->]. by destruct (Hno r).
Qed.

(** * Further properties of the digest *)

(** X3: [format_compare] distributes over the concatenation of line lists,
    gives the empty text for no lines, and its length is the sum over the
    lines of the lengths of the prefix and the line, plus one for the
    newline. *)
Theorem format_compare_app_length (l1 l2 : list string) (p : string) :
  format_compare (l1 ++ l2) p = format_compare l1 p +:+ format_compare l2 p ∧
  format_compare [] p = "" ∧
  String.length (format_compare l1 p)
  = sum_list (map (λ line, String.length p + String.length line + 1) l1).
Proof.
  split; [by rewrite !format_compare_render, render_lines_app|].
  split; [reflexivity|]. rewrite format_compare_render.
  induction l1 as [|l l1 IH]; [reflexivity|].
  cbn [render_lines foldr map sum_list sum_list_with].
  fold (render_lines p l1). rewrite !Str_length_app, IH. cbn. lia.
Qed.

Lemma concat_block_texts_empty (n k : nat) (blocks : list block) :
  Forall (λ blk : block,
            blk !! "ab" = None ∧ blk !! "a" = None ∧ blk !! "b" = None)
    blocks →
  String.concat "" (imap (λ j, block_text n (k + j)) blocks) = "".
Proof.
  intros Hall. revert k. induction Hall as [|blk blocks (Hab & Ha & Hb) _ IH];
    intros k; [reflexivity|].
  rewrite imap_cons, Str_concat_cons.
  unfold block_text at 1, block_step. rewrite Hab, Ha, Hb.
  etrans; [|apply (IH (S k))].
  change ("" +:+ ?x) with x. f_equal. apply imap_ext. intros j x _.
  unfold compose. by replace (k + S j) with (S k + j) by lia.
Qed.

(** X4: a diff with no content key, with an empty content list, or whose
    blocks hold none of the keys "ab", "a" and "b" (a skipped region, say)
    has the three closing newlines as its whole digest. *)
Theorem keyless_blocks_empty_digest (d : diff_json) :
  Forall (λ blk : block,
            blk !! "ab" = None ∧ blk !! "a" = None ∧ blk !! "b" = None)
    (default [] (content d)) →
  repository_compare d = digest_end.
Proof.
  intros Hall. rewrite repository_compare_blocks.
  by rewrite (concat_block_texts_empty _ 0 _ Hall).
Qed.

(** X5: whatever the size of an unchanged-context block, the digest holds
    at most 8 of its lines, and at most 4 when the block is the first or the
    last of the list; every line it holds for the block is a line of the
    block, and in first or last position the lines keep their order. *)
Theorem context_block_line_bound (n i : nat) (blk : block) (ab : list string) :
  blk !! "ab" = Some ab →
  ∃ emitted : list string,
    block_text n i blk = render_lines "" emitted ∧
    length emitted ≤ 8 ∧
    (∀ line, line ∈ emitted → line ∈ ab) ∧
    (i = 0 ∨ i = n - 1 → length emitted ≤ 4 ∧ emitted `sublist_of` ab).
Proof.
  intros Hab. rewrite (context_block_text n i blk ab Hab).
  assert (Ht : take 4 ab `sublist_of` ab) by apply sublist_take.
  assert (Hd : drop (length ab - 4) ab `sublist_of` ab) by apply sublist_drop.
  assert (Hlt : length (take 4 ab) ≤ 4) by (rewrite length_take; lia).
  assert (Hld : length (drop (length ab - 4) ab) ≤ 4)
    by (rewrite length_drop; lia).
  destruct (decide (i = 0)) as [->|Hi];
    [|destruct (decide (i = n - 1)) as [->|Hn]]; eexists;
    (split; [reflexivity|]).
  - split; [lia|]. split; [|done].
    intros line Hin. by eapply elem_of_sublist.
  - split; [lia|]. split; [|done].
    intros line Hin. by eapply elem_of_sublist.
  - split; [rewrite length_app; lia|]. split; [|intros [?|?]; done].
    intros line [Hin|Hin]%elem_of_app; by eapply elem_of_sublist.
Qed.

(** X6: a middle unchanged-context block of 8 lines or more is rendered
    as exactly 8 lines, its first four and then its last four; they are a
    subsequence of the block, so no line of the block is emitted twice, and
    the lines between them are left out with no mark in their place. *)
Theorem long_middle_block_cut (n i : nat) (blk : block) (ab : list string) :
  blk !! "ab" = Some ab →
  i ≠ 0 → i ≠ n - 1 →
  8 ≤ length ab →
  ∃ first4 omitted last4 : list string,
    ab = first4 ++ omitted ++ last4 ∧
    length first4 = 4 ∧ length last4 = 4 ∧
    length omitted = length ab - 8 ∧
    block_text n i blk = render_lines "" (first4 ++ last4) ∧
    (first4 ++ last4) `sublist_of` ab.
Proof.
  intros Hab Hi Hn Hlen. rewrite (context_block_text n i blk ab Hab).
  destruct (decide (i = 0)); [done|]. destruct (decide (i = n - 1)); [done|].
  exists (take 4 ab), (take (length ab - 8) (drop 4 ab)),
    (drop (length ab - 4) ab).
  assert (Hsplit : ab = take 4 ab ++ take (length ab - 8) (drop 4 ab)
                        ++ drop (length ab - 4) ab).
  { rewrite <- (take_drop 4 ab) at 1. f_equal.
    rewrite <- (take_drop (length ab - 8) (drop 4 ab)) at 1. f_equal.
    rewrite drop_drop. f_equal. lia. }
  split; [exact Hsplit|]. split; [rewrite length_take; lia|].
  split; [rewrite length_drop; lia|].
  split; [rewrite length_take, length_drop; lia|].
  split; [reflexivity|].
  assert (Hsub : take 4 ab ++ drop (length ab - 4) ab
                 `sublist_of` take 4 ab ++ take (length ab - 8) (drop 4 ab)
                                ++ drop (length ab - 4) ab)
    by (apply sublist_app; [done | by apply sublist_inserts_l]).
  by rewrite <- Hsplit in Hsub.
Qed.

(** X7: an unchanged-context block of at most 4 lines is rendered in full
    when it is the first or the last block, and in full twice when it stands
    between other blocks. *)
Theorem short_context_block_whole (n i : nat) (blk : block) (ab : list string) :
  blk !! "ab" = Some ab →
  length ab ≤ 4 →
  block_text n i blk
  = if decide (i = 0 ∨ i = n - 1) then render_lines "" ab
    else render_lines "" ab +:+ render_lines "" ab.
Proof.
  intros Hab Hlen. rewrite (context_block_text n i blk ab Hab).
  replace (length ab - 4) with 0 by lia. rewrite drop_0, take_ge by lia.
  destruct (decide (i = 0)) as [->|Hi].
  - by rewrite decide_True by (by left).
  - destruct (decide (i = n - 1)) as [->|Hn].
    + by rewrite decide_True by (by right).
    + rewrite decide_False by (by intros [?|?]). apply render_lines_app.
Qed.

(** X8: the text of a block depends on its keys "ab", "a" and "b" only,
    and when the block has an "ab" key, on that key alone: its "a" and "b"
    lists, if it has any, are not rendered. *)
Theorem block_text_keys (n i : nat) (blk1 blk2 : block) :
  blk1 !! "ab" = blk2 !! "ab" →
  (blk1 !! "ab" = None →
   blk1 !! "a" = blk2 !! "a" ∧ blk1 !! "b" = blk2 !! "b") →
  block_text n i blk1 = block_text n i blk2.
Proof.
  intros Hab Hrest. unfold block_text, block_step. rewrite <- Hab.
  destruct (blk1 !! "ab") as [ab|]; [reflexivity|].
  destruct (Hrest eq_refl) as [-> ->]. reflexivity.
Qed.

Lemma String_concat_app (l1 l2 : list string) :
  String.concat "" (l1 ++ l2) = String.concat "" l1 +:+ String.concat "" l2.
Proof.
  induction l1 as [|s l1 IH]; [reflexivity|].
  rewrite <- app_comm_cons, !Str_concat_cons, IH. by rewrite Str_app_assoc.
Qed.

Lemma changed_block_text_anywhere (n i n' i' : nat) (blk : block) :
  blk !! "ab" = None → block_text n i blk = block_text n' i' blk.
Proof. intros Hab. unfold block_text, block_step. by rewrite Hab. Qed.

Lemma changed_blocks_digest (blocks : list block) :
  Forall (λ blk : block, blk !! "ab" = None) blocks →
  repository_compare (DiffJson (Some blocks))
  = String.concat "" (map (block_text 0 0) blocks) +:+ digest_end.
Proof.
  intros Hall. rewrite repository_compare_blocks. cbn [content default from_option].
  f_equal. f_equal. rewrite <- (imap_const (block_text 0 0)).
  apply imap_ext. intros j blk Hj. apply changed_block_text_anywhere.
  by apply (Forall_lookup_1 _ _ _ _ Hall Hj).
Qed.

(** X9: a block without an "ab" key is rendered the same wherever it
    stands, so the digest of a list of such blocks is put together from the
    digests of its parts: the text of the first part, then the text of the
    second, then the closing newlines. *)
Theorem changed_blocks_digest_app (l1 l2 : list block) :
  Forall (λ blk : block, blk !! "ab" = None) (l1 ++ l2) →
  ∃ t1 t2 : string,
    repository_compare (DiffJson (Some l1)) = t1 +:+ digest_end ∧
    repository_compare (DiffJson (Some l2)) = t2 +:+ digest_end ∧
    repository_compare (DiffJson (Some (l1 ++ l2)))
    = t1 +:+ t2 +:+ digest_end.
Proof.
  intros Hall. pose proof Hall as [H1 H2]%Forall_app.
  exists (String.concat "" (map (block_text 0 0) l1)),
    (String.concat "" (map (block_text 0 0) l2)).
  rewrite !changed_blocks_digest by done.
  by rewrite map_app, String_concat_app, Str_app_assoc.
Qed.

(** * Further properties of the file filters *)

Lemma Str_drop_app (p s : string) : Str.drop (String.length p) (p +:+ s) = s.
Proof. induction p as [|c p IH]; [by destruct s | exact IH]. Qed.

Lemma substring_app_skip (a s : string) (m : nat) :
  String.substring (String.length a) m (a +:+ s) = String.substring 0 m s.
Proof. induction a as [|c a IH]; [reflexivity | exact IH]. Qed.

Lemma substring_app_all (a s : string) :
  String.substring 0 (String.length a) (a +:+ s) = a.
Proof.
  induction a as [|c a IH]; [by destruct s|].
  rewrite Str_app_cons. cbn. by rewrite IH.
Qed.

Lemma rfind_from_notin (c : ascii) (p : string) (i found : Z) :
  c ∉ Str.chars p → Str.rfind_from c p i found = found.
Proof.
  unfold Str.chars. revert i found.
  induction p as [|d p IH]; intros i found Hc; [reflexivity|].
  cbn [list_ascii_of_string] in Hc. apply not_elem_of_cons in Hc as [Hd Hc].
  cbn [Str.rfind_from]. rewrite (IH _ _ Hc).
  destruct (Ascii.eqb_spec d c); [congruence | reflexivity].
Qed.

Lemma rfind_from_app (c : ascii) (a b : string) (i found : Z) :
  Str.rfind_from c (a +:+ b) i found
  = Str.rfind_from c b (i + Z.of_nat (String.length a))%Z
      (Str.rfind_from c a i found).
Proof.
  revert i found. induction a as [|d a IH]; intros i found.
  - cbn. by rewrite Z.add_0_r.
  - rewrite Str_app_cons. cbn [Str.rfind_from String.length]. rewrite IH.
    f_equal. lia.
Qed.

Lemma rfind_last (c : ascii) (a b : string) :
  c ∉ Str.chars b →
  Str.rfind c (a +:+ String c b) = Z.of_nat (String.length a).
Proof.
  intros Hc. unfold Str.rfind. rewrite rfind_from_app.
  cbn [Str.rfind_from]. rewrite (rfind_from_notin _ _ _ _ Hc).
  by rewrite Ascii.eqb_refl.
Qed.

Lemma rfind_notin (c : ascii) (p : string) :
  c ∉ Str.chars p → Str.rfind c p = (-1)%Z.
Proof. apply rfind_from_notin. Qed.

Lemma last_occurrence (c : ascii) (p : string) :
  c ∈ Str.chars p →
  ∃ a b, p = a +:+ String c b ∧ c ∉ Str.chars b.
Proof.
  unfold Str.chars. induction p as [|d p IH]; cbn [list_ascii_of_string].
  - by intros ?%elem_of_nil.
  - intros Hin. destruct (decide (c ∈ list_ascii_of_string p)) as [Hp|Hp].
    + destruct (IH Hp) as (a & b & -> & Hb). by exists (String d a), b.
    + apply elem_of_cons in Hin as [->|?]; [|done]. by exists "", p.
Qed.

(** The last [c] of [p] is at or after any place where a [c] stands. *)
Lemma rfind_ge (c : ascii) (a b : string) :
  (Z.of_nat (String.length a) ≤ Str.rfind c (a +:+ String c b))%Z.
Proof.
  destruct (decide (c ∈ Str.chars b)) as [Hb|Hb].
  - destruct (last_occurrence c b Hb) as (b1 & b2 & -> & Hb2).
    replace (a +:+ String c (b1 +:+ String c b2))
      with ((a +:+ String c b1) +:+ String c b2)
      by (by rewrite Str_app_assoc).
    rewrite (rfind_last _ _ _ Hb2), Str_length_app. cbn. lia.
  - rewrite (rfind_last _ _ _ Hb). lia.
Qed.

Lemma existsb_not_dot (s : string) :
  existsb (λ c, negb (Ascii.eqb c ".")) (Str.chars s) = true
  ↔ ∃ c, c ∈ Str.chars s ∧ c ≠ "."%char.
Proof.
  rewrite existsb_exists. split; intros (c & Hin & Hc); exists c.
  - apply list_elem_of_In in Hin. split; [done|].
    apply negb_true_iff in Hc. by apply Ascii.eqb_neq in Hc.
  - split; [by apply list_elem_of_In|].
    apply negb_true_iff. by apply Ascii.eqb_neq.
Qed.

(** The separator index of a path whose last component is [rest]. *)
Lemma rfind_sep (dir rest : string) :
  dir = "" ∨ (∃ d, dir = d +:+ "/") →
  "/"%char ∉ Str.chars rest →
  (Str.rfind "/" (dir +:+ rest) + 1)%Z = Z.of_nat (String.length dir).
Proof.
  intros [->|[d ->]] Hrest.
  - change ("" +:+ rest) with rest. by rewrite (rfind_notin _ _ Hrest).
  - rewrite Str_app_assoc. change ("/" +:+ rest) with (String "/" rest).
    rewrite (rfind_last _ _ _ Hrest), Str_length_app. cbn. lia.
Qed.

(** [splitext] on a path whose last component holds a dot: the part
    [name] before the component's last dot decides. *)
Lemma splitext_shape (dir name e : string) :
  dir = "" ∨ (∃ d, dir = d +:+ "/") →
  "/"%char ∉ Str.chars name →
  "."%char ∉ Str.chars e →
  "/"%char ∉ Str.chars e →
  splitext (dir +:+ name +:+ "." +:+ e)
  = if existsb (λ c, negb (Ascii.eqb c ".")) (Str.chars name)
    then (dir +:+ name, "." +:+ e)
    else (dir +:+ name +:+ "." +:+ e, "").
Proof.
  intros Hdir Hname He Hes. unfold splitext. cbv zeta.
  assert (Hrest : "/"%char ∉ Str.chars (name +:+ "." +:+ e)).
  { rewrite !Str_chars_app, !not_elem_of_app. split; [done|]. split; [|done].
    cbn. rewrite not_elem_of_cons. split; [discriminate | apply not_elem_of_nil]. }
  pose proof (rfind_sep dir _ Hdir Hrest) as Hsep.
  assert (Hdot : Str.rfind "." (dir +:+ name +:+ "." +:+ e)
                 = Z.of_nat (String.length (dir +:+ name))).
  { rewrite <- Str_app_assoc. change ("." +:+ e) with (String "." e).
    by apply rfind_last. }
  rewrite Hdot. rewrite Str_length_app in Hdot |- *.
  replace (Z.to_nat (Str.rfind "/" (dir +:+ name +:+ "." +:+ e) + 1))
    with (String.length dir) by lia.
  replace (Z.to_nat _) with (String.length name) by lia.
  rewrite substring_app_skip, substring_app_all.
  replace (_ >? _)%Z with true by (symmetry; apply Z.gtb_lt; lia).
  cbn [andb]. destruct (existsb _ _); [|reflexivity].
  replace (Z.to_nat _) with (String.length (dir +:+ name))
    by (rewrite Str_length_app; lia).
  rewrite <- (Str_app_assoc dir name).
  by rewrite substring_app_all, Str_drop_app.
Qed.

(** [splitext] on a path that has an extension. *)
Lemma splitext_ext (dir name e : string) :
  dir = "" ∨ (∃ d, dir = d +:+ "/") →
  "/"%char ∉ Str.chars name →
  (∃ c, c ∈ Str.chars name ∧ c ≠ "."%char) →
  "."%char ∉ Str.chars e →
  "/"%char ∉ Str.chars e →
  splitext (dir +:+ name +:+ "." +:+ e) = (dir +:+ name, "." +:+ e).
Proof.
  intros Hdir Hname Hc He Hes.
  rewrite (splitext_shape dir name e Hdir Hname He Hes).
  by rewrite (proj2 (existsb_not_dot name) Hc).
Qed.

Lemma rfind_bounds (c : ascii) (p : string) :
  (-1 ≤ Str.rfind c p < Z.of_nat (String.length p))%Z.
Proof.
  destruct (decide (c ∈ Str.chars p)) as [Hp|Hp].
  - destruct (last_occurrence c p Hp) as (a & b & -> & Hb).
    rewrite (rfind_last _ _ _ Hb), Str_length_app. cbn. lia.
  - rewrite (rfind_notin _ _ Hp). lia.
Qed.

Lemma rfind_app_notin (c : ascii) (a b : string) :
  c ∉ Str.chars b → Str.rfind c (a +:+ b) = Str.rfind c a.
Proof.
  intros Hb. unfold Str.rfind. rewrite rfind_from_app.
  by apply rfind_from_notin.
Qed.

(** [splitext] finds no extension when the last dot is not in the last
    component. *)
Lemma splitext_no_ext (p : string) :
  (Str.rfind "." p ≤ Str.rfind "/" p)%Z → splitext p = (p, "").
Proof.
  intros Hle. unfold splitext. cbv zeta.
  by replace (_ >? _)%Z with false by (symmetry; rewrite Z.gtb_ltb; apply Z.ltb_ge; lia).
Qed.

(** The last component of a path, split off. *)
Lemma last_component (a : string) :
  ∃ dir name,
    a = dir +:+ name ∧ (dir = "" ∨ ∃ d, dir = d +:+ "/") ∧
    "/"%char ∉ Str.chars name.
Proof.
  destruct (decide ("/"%char ∈ Str.chars a)) as [Ha|Ha].
  - destruct (last_occurrence _ a Ha) as (d & name & -> & Hname).
    exists (d +:+ "/"), name. rewrite Str_app_assoc.
    split; [reflexivity|]. split; [right; by exists d | done].
  - exists "", a. split; [reflexivity|]. split; [by left | done].
Qed.

(** Every path is of one of two kinds for [splitext]. *)
Lemma splitext_cases (p : string) :
  splitext p = (p, "")
  ∨ ∃ dir name e,
      p = dir +:+ name +:+ "." +:+ e ∧
      (dir = "" ∨ ∃ d, dir = d +:+ "/") ∧
      ("/"%char ∉ Str.chars name) ∧
      (∃ c, c ∈ Str.chars name ∧ c ≠ "."%char) ∧
      ("."%char ∉ Str.chars e) ∧
      ("/"%char ∉ Str.chars e) ∧
      splitext p = (dir +:+ name, "." +:+ e).
Proof.
  destruct (decide ("."%char ∈ Str.chars p)) as [Hp|Hp].
  - destruct (last_occurrence _ p Hp) as (a & e & -> & He).
    destruct (decide ("/"%char ∈ Str.chars e)) as [Hes|Hes].
    + left. apply splitext_no_ext. rewrite (rfind_last _ _ _ He).
      destruct (last_occurrence _ e Hes) as (e1 & e2 & -> & _).
      replace (a +:+ String "." (e1 +:+ String "/" e2))
        with ((a +:+ String "." e1) +:+ String "/" e2)
        by (by rewrite Str_app_assoc).
      pose proof (rfind_ge "/" (a +:+ String "." e1) e2) as Hge.
      rewrite Str_length_app in Hge. cbn in Hge. lia.
    + destruct (last_component a) as (dir & name & -> & Hdir & Hname).
      change (String "." e) with ("." +:+ e). rewrite Str_app_assoc.
      rewrite (splitext_shape dir name e Hdir Hname He Hes).
      destruct (existsb _ _) eqn:Hex; [|by left].
      right. exists dir, name, e. apply existsb_not_dot in Hex. done.
  - left. apply splitext_no_ext. rewrite (rfind_notin _ _ Hp).
    pose proof (rfind_bounds "/" p). lia.
Qed.

(** X10: [splitext] cuts the path in two: the root and the extension give
    the path back, and the extension is empty or is a dot followed by
    characters that are neither dots nor slashes. *)
Theorem splitext_root_ext (p : string) :
  ∃ root ext : string,
    splitext p = (root, ext) ∧
    p = root +:+ ext ∧
    (ext = ""
     ∨ ∃ e, ext = "." +:+ e ∧
            ("."%char ∉ Str.chars e) ∧ "/"%char ∉ Str.chars e).
Proof.
  destruct (splitext_cases p)
    as [Hno|(dir & name & e & Hp & _ & _ & _ & He & Hes & Hsplit)].
  - exists p, "". rewrite Str_app_nil_r. by repeat split; [|left].
  - exists (dir +:+ name), ("." +:+ e). split; [done|].
    split; [by rewrite Str_app_assoc|]. right. by exists e.
Qed.

Lemma not_ignored_without_ext (p : string) :
  splitext p = (p, "") → is_ignored_file p = false.
Proof. intros H. unfold is_ignored_file. by rewrite H. Qed.

(** X11: the paths that are ignored, by their make-up. A path is ignored
    exactly when it is a directory part (empty, or ending in a slash), a file
    name part without slash that is not made of dots only, a dot, and a last
    part without dot or slash, such that the dot and the last part,
    lowercased, are one of the eleven extensions of the list. *)
Theorem is_ignored_file_paths (p : string) :
  is_ignored_file p = true
  ↔ ∃ dir name e : string,
      p = dir +:+ name +:+ "." +:+ e ∧
      (dir = "" ∨ ∃ d, dir = d +:+ "/") ∧
      ("/"%char ∉ Str.chars name) ∧
      (∃ c, c ∈ Str.chars name ∧ c ≠ "."%char) ∧
      ("."%char ∉ Str.chars e) ∧
      ("/"%char ∉ Str.chars e) ∧
      Str.lower ("." +:+ e)
      ∈ [".so"; ".a"; ".md"; ".png"; ".jpg"; ".jpeg"; ".gif"; ".zip"; ".tar";
         ".gz"; ".bz2"].
Proof.
  split.
  - intros Hig.
    destruct (splitext_cases p)
      as [Hno|(dir & name & e & Hp & Hdir & Hname & Hc & He & Hes & Hsplit)].
    + by rewrite (not_ignored_without_ext p Hno) in Hig.
    + exists dir, name, e. repeat (split; [done|]).
      apply is_ignored_file_ext in Hig. by rewrite Hsplit in Hig.
  - intros (dir & name & e & -> & Hdir & Hname & Hc & He & Hes & Hin).
    apply is_ignored_file_ext.
    by rewrite (splitext_ext dir name e Hdir Hname Hc He Hes).
Qed.


Lemma Str_snoc (s : string) :
  s = "" ∨ ∃ s' c, s = s' +:+ String c "".
Proof.
  induction s as [|d s IH]; [by left|]. right.
  destruct IH as [->|(s' & c & ->)].
  - by exists "", d.
  - by exists (String d s'), c.
Qed.

(** X12: a path whose last component holds no dot, or holds dots at its
    start only (".md", "..so", ".gitignore"), is never ignored, whatever
    follows the dots. *)
Theorem leading_dots_never_ignored (dir dots rest : string) :
  dir = "" ∨ (∃ d, dir = d +:+ "/") →
  (∀ c, c ∈ Str.chars dots → c = "."%char) →
  "."%char ∉ Str.chars rest →
  "/"%char ∉ Str.chars rest →
  is_ignored_file (dir +:+ dots +:+ rest) = false.
Proof.
  intros Hdir Hdots Hrest Hslash. apply not_ignored_without_ext.
  destruct (Str_snoc dots) as [->|(ds & c & ->)].
  - change ("" +:+ rest) with rest. apply splitext_no_ext.
    rewrite (rfind_app_notin _ _ _ Hrest).
    pose proof (rfind_sep dir rest Hdir Hslash).
    pose proof (rfind_bounds "." dir). lia.
  - assert (Hc : c = "."%char).
    { apply Hdots. rewrite Str_chars_app. apply elem_of_app. right. by left. }
    subst c.
    assert (Hds : ∀ c, c ∈ Str.chars ds → c = "."%char).
    { intros c Hin. apply Hdots. rewrite Str_chars_app. apply elem_of_app.
      by left. }
    rewrite (Str_app_assoc ds). change (String "." "" +:+ rest) with ("." +:+ rest).
    rewrite splitext_shape; [|done| |done..].
    + destruct (existsb _ _) eqn:Hex; [|reflexivity].
      apply existsb_not_dot in Hex as (c & Hin & Hne). by destruct (Hne (Hds c Hin)).
    + intros Hin. by pose proof (Hds _ Hin).
Qed.

Lemma lower_char_idemp (c : ascii) :
  Str.lower_char (Str.lower_char c) = Str.lower_char c.
Proof. destruct c as [[] [] [] [] [] [] [] []]; vm_compute; reflexivity. Qed.

Lemma lower_char_eqb_dot (c : ascii) :
  Ascii.eqb (Str.lower_char c) "." = Ascii.eqb c ".".
Proof. destruct c as [[] [] [] [] [] [] [] []]; vm_compute; reflexivity. Qed.

Lemma lower_char_eqb_slash (c : ascii) :
  Ascii.eqb (Str.lower_char c) "/" = Ascii.eqb c "/".
Proof. destruct c as [[] [] [] [] [] [] [] []]; vm_compute; reflexivity. Qed.

Lemma lower_idemp (s : string) : Str.lower (Str.lower s) = Str.lower s.
Proof.
  induction s as [|c s IH]; [reflexivity|]. cbn [Str.lower].
  by rewrite lower_char_idemp, IH.
Qed.

Lemma rfind_from_lower (c : ascii) (p : string) (i found : Z) :
  (∀ d, Ascii.eqb (Str.lower_char d) c = Ascii.eqb d c) →
  Str.rfind_from c (Str.lower p) i found = Str.rfind_from c p i found.
Proof.
  intros Hc. revert i found. induction p as [|d p IH]; intros i found;
    [reflexivity|].
  cbn [Str.lower Str.rfind_from]. by rewrite Hc, IH.
Qed.

Lemma lower_substring (n m : nat) (s : string) :
  Str.lower (String.substring n m s) = String.substring n m (Str.lower s).
Proof.
  revert n m. induction s as [|c s IH]; intros [|n] [|m]; try reflexivity.
  - cbn [String.substring Str.lower]. by rewrite IH.
  - cbn [String.substring Str.lower]. by rewrite IH.
  - cbn [String.substring Str.lower]. by rewrite IH.
Qed.

Lemma lower_drop (n : nat) (s : string) :
  Str.lower (Str.drop n s) = Str.drop n (Str.lower s).
Proof.
  revert n. induction s as [|c s IH]; intros [|n]; try reflexivity.
  cbn [Str.drop Str.lower]. by rewrite IH.
Qed.

Lemma existsb_not_dot_lower (s : string) :
  existsb (λ c, negb (Ascii.eqb c ".")) (Str.chars (Str.lower s))
  = existsb (λ c, negb (Ascii.eqb c ".")) (Str.chars s).
Proof.
  unfold Str.chars. induction s as [|c s IH]; [reflexivity|].
  cbn [Str.lower list_ascii_of_string existsb].
  by rewrite lower_char_eqb_dot, IH.
Qed.

Lemma splitext_lower (p : string) :
  splitext (Str.lower p)
  = (Str.lower (splitext p).1, Str.lower (splitext p).2).
Proof.
  unfold splitext, Str.rfind. cbv zeta.
  rewrite !(rfind_from_lower "." _ _ _ lower_char_eqb_dot).
  rewrite !(rfind_from_lower "/" _ _ _ lower_char_eqb_slash).
  rewrite <- lower_substring, existsb_not_dot_lower.
  destruct (_ && _); cbn [fst snd]; [|reflexivity].
  by rewrite lower_substring, lower_drop.
Qed.

Lemma is_ignored_file_lower (p : string) :
  is_ignored_file (Str.lower p) = is_ignored_file p.
Proof.
  unfold is_ignored_file. rewrite splitext_lower.
  destruct (splitext p) as [root ext]. cbn [fst snd]. by rewrite lower_idemp.
Qed.

(** X13: whether a path is ignored does not depend on the case of any of
    its letters: two paths with the same lowercase form are both ignored or
    both kept. *)
Theorem is_ignored_file_caseless (p q : string) :
  Str.lower p = Str.lower q → is_ignored_file p = is_ignored_file q.
Proof.
  intros Hpq.
  by rewrite <- (is_ignored_file_lower p), Hpq, is_ignored_file_lower.
Qed.

(** * Further properties of the run *)

Lemma substring_prefix (n : nat) (s : string) :
  String.length (String.substring 0 n s) = min n (String.length s) ∧
  ∃ tail, s = String.substring 0 n s +:+ tail.
Proof.
  revert n. induction s as [|c s IH]; intros [|n].
  - split; [reflexivity | by exists ""].
  - split; [reflexivity | by exists ""].
  - split; [reflexivity | by exists (String c s)].
  - destruct (IH n) as [Hlen [tail Htail]]. cbn [String.substring].
    split; [cbn; by rewrite Hlen|]. exists tail.
    rewrite Str_app_cons. by rewrite <- Htail.
Qed.

Section RunExtras.

Context (L : library).

Implicit Types (s : session L).

(** X14: a run that raises has made one request, for the change, or two,
    for the change and then for the files of the revision it read; it has
    requested no diff. *)
Theorem raising_run_requests s (base_url change_id : string)
    (log : list string) (e : exn) :
  Repository_Compare L s base_url change_id = (log, Raise e) →
  log = [change_url_of base_url change_id]
  ∨ ∃ rev,
      change_ok L s base_url change_id rev ∧
      log = [change_url_of base_url change_id;
             file_url_of base_url change_id rev].
Proof.
  intros Hrun.
  destruct (preliminaries_or_failure L s base_url change_id)
    as [(file_url & files & Hpre)|[e' Hfail]].
  - rewrite (Repository_Compare_returns L s _ _ _ _ Hpre) in Hrun.
    discriminate.
  - destruct (Repository_Compare_raises L s _ _ _ Hfail)
      as [Hrun'|(rev & Hchange & Hrun')]; rewrite Hrun' in Hrun.
    + left. congruence.
    + right. exists rev. split; [done | congruence].
Qed.

Lemma length_file_entries s (file_url : string) (files : list string) :
  length (flat_map (file_entries L s file_url) files)
  = length (filter (λ f, is_ignored_file f = false) files).
Proof.
  symmetry. eapply Forall2_length, entries_headed.
Qed.

(** X15: in a run that gets to the files, every diff request leaves
    exactly one entry: the results are as many as the files that are not
    ignored, and the requests are two more. *)
Theorem one_entry_per_diff_request s (base_url change_id file_url : string)
    (files : list string) :
  preliminaries L s base_url change_id file_url files →
  ∃ results : list string,
    (Repository_Compare L s base_url change_id).2 = Return results ∧
    length results = length (filter (λ f, is_ignored_file f = false) files) ∧
    length (Repository_Compare L s base_url change_id).1
    = 2 + length results.
Proof.
  intros Hpre. rewrite (Repository_Compare_returns L s _ _ _ _ Hpre).
  eexists. split; [reflexivity|]. cbn [fst snd length].
  rewrite length_file_entries, flat_map_file_requests, length_map. done.
Qed.

(** X16: the entry of a file whose diff is fetched and decoded is the
    header of the file followed by the digest of the diff, and it stands in
    the results after the entries of the files before it and before those of
    the files after it. *)
Theorem fetched_diff_entry s (base_url change_id file_url : string)
    (files : list string) (i : nat) (f : string) (resp : response L)
    (body : string) (d : diff_json) :
  preliminaries L s base_url change_id file_url files →
  files !! i = Some f →
  is_ignored_file f = false →
  s (path_url_of L file_url f) = Return resp →
  status_error L resp = None →
  strip_gerrit_json (text L resp) = Return body →
  loads_diff L body = inr d →
  ∃ before after : list string,
    (Repository_Compare L s base_url change_id).2
    = Return (before ++ (header f +:+ repository_compare d) :: after) ∧
    length before
    = length (filter (λ f, is_ignored_file f = false) (take i files)) ∧
    length after
    = length (filter (λ f, is_ignored_file f = false) (drop (S i) files)).
Proof.
  intros Hpre Hi Hig Hget Hst Hstrip Hloads.
  rewrite (Repository_Compare_returns L s _ _ _ _ Hpre). cbn [snd].
  exists (flat_map (file_entries L s file_url) (take i files)),
    (flat_map (file_entries L s file_url) (drop (S i) files)).
  rewrite !length_file_entries. split; [|done].
  rewrite <- (take_drop_middle files i f Hi) at 1.
  rewrite flat_map_app. cbn [flat_map]. do 2 f_equal.
  unfold file_entries at 1, entry_of.
  by rewrite Hig, Hget, Hst, Hstrip, Hloads.
Qed.

(** X17: when the files response lists no file, or only files that are
    ignored, the run makes its two preliminary requests and returns the
    empty list. *)
Theorem all_ignored_empty_results s (base_url change_id file_url : string)
    (files : list string) :
  preliminaries L s base_url change_id file_url files →
  Forall (λ f, is_ignored_file f = true) files →
  Repository_Compare L s base_url change_id
  = ([change_url_of base_url change_id; file_url], Return []).
Proof.
  intros Hpre Hall. rewrite (Repository_Compare_returns L s _ _ _ _ Hpre).
  assert (Hreq : flat_map (file_requests L file_url) files = []
                 ∧ flat_map (file_entries L s file_url) files = []).
  { clear Hpre. induction Hall as [|f files Hf _ [IH1 IH2]]; [done|].
    cbn [flat_map]. unfold file_requests at 1, file_entries at 1.
    by rewrite Hf, IH1, IH2. }
  destruct Hreq as [-> ->]. reflexivity.
Qed.

(** X18: when [json.loads] raises a JSONDecodeError on the body of the
    diff response of a file that is not ignored, the results hold, in the
    place of the file, the entry made of the header of the file, "[Error] ",
    "Decode diff for", the path, "failed:", the text of the decoder's error,
    a newline, "Raw: ", an excerpt, and two newlines. The excerpt is taken
    from the response text as received, before stripping: its first 200
    characters, or all of it when it is shorter. *)
Theorem decode_failure_entry s (base_url change_id file_url : string)
    (files : list string) (i : nat) (f : string) (resp : response L)
    (body msg : string) :
  preliminaries L s base_url change_id file_url files →
  files !! i = Some f →
  is_ignored_file f = false →
  s (path_url_of L file_url f) = Return resp →
  status_error L resp = None →
  strip_gerrit_json (text L resp) = Return body →
  loads_diff L body = inl msg →
  ∃ (before after : list string) (excerpt tail : string),
    (Repository_Compare L s base_url change_id).2
    = Return
        (before
           ++ (header f +:+ "[Error] " +:+ "Decode diff for " +:+ f
                 +:+ " failed: " +:+ msg +:+ nl +:+ "Raw: " +:+ excerpt
                 +:+ nl +:+ nl)
           :: after) ∧
    text L resp = excerpt +:+ tail ∧
    String.length excerpt = min 200 (String.length (text L resp)) ∧
    length before
    = length (filter (λ f, is_ignored_file f = false) (take i files)) ∧
    length after
    = length (filter (λ f, is_ignored_file f = false) (drop (S i) files)).
Proof.
  intros Hpre Hi Hig Hget Hst Hstrip Hloads.
  destruct (substring_prefix 200 (text L resp)) as [Hlen [tail Htail]].
  rewrite (Repository_Compare_returns L s _ _ _ _ Hpre). cbn [snd].
  exists (flat_map (file_entries L s file_url) (take i files)),
    (flat_map (file_entries L s file_url) (drop (S i) files)),
    (String.substring 0 200 (text L resp)), tail.
  rewrite !length_file_entries.
  split; [|split; [exact Htail | split; [exact Hlen | done]]].
  rewrite <- (take_drop_middle files i f Hi) at 1.
  rewrite flat_map_app. cbn [flat_map]. do 2 f_equal.
  unfold file_entries at 1, entry_of.
  rewrite Hig, Hget, Hst, Hstrip, Hloads.
  unfold error_entry, decode_error. cbn [class_of str_of].
  by rewrite !Str_app_assoc.
Qed.

(** ** The entry point *)



(** X20: when a preliminary step fails, the script prints nothing and
    ends with the exception of that step, which it does not catch. *)
Theorem main_silent_on_failure (network : string * string → session L)
    (environ : gmap string string) (e : exn) :
  preliminary_failure L
    (network (getenv_or environ "GERRIT_USER" "your_user",
              getenv_or environ "GERRIT_PASS" "your_name"))
    (getenv_or environ "GERRIT_URL" "gerrit_url") "change_id" e →
  ∃ log, main L network environ = (log, ("", Raise e)).
Proof.
  intros Hfail. unfold main. cbv zeta.
  destruct (Repository_Compare_raises L _ _ _ _ Hfail)
    as [->|(rev & _ & ->)]; by eexists.
Qed.

(** X21: whatever the environment holds, the first request of the script
    is for the change named "change_id" on the server of GERRIT_URL, and on
    "gerrit_url" when that variable is unset or empty; the same holds for the
    user and the password, with "your_user" and "your_name", in the
    credentials the session is opened with. *)
Theorem main_first_request (network : string * string → session L)
    (environ : gmap string string) :
  (∃ rest out,
     main L network environ
     = ((getenv_or environ "GERRIT_URL" "gerrit_url"
           +:+ "/a/changes/change_id?o=CURRENT_REVISION") :: rest, out)) ∧
  (∀ network' : string * string → session L,
     network' (getenv_or environ "GERRIT_USER" "your_user",
               getenv_or environ "GERRIT_PASS" "your_name")
     = network (getenv_or environ "GERRIT_USER" "your_user",
                getenv_or environ "GERRIT_PASS" "your_name") →
     main L network' environ = main L network environ) ∧
  (∀ key default,
     (environ !! key = None ∨ environ !! key = Some "" →
      getenv_or environ key default = default) ∧
     (∀ value, environ !! key = Some value → value ≠ "" →
               getenv_or environ key default = value)).
Proof.
  split; [|split].
  - unfold main. cbv zeta.
    set (s := network _). set (base := getenv_or environ "GERRIT_URL" _).
    destruct (preliminaries_or_failure L s base "change_id")
      as [(file_url & files & Hpre)|[e Hfail]].
    + rewrite (Repository_Compare_returns L _ _ _ _ _ Hpre). by eexists _, _.
    + destruct (Repository_Compare_raises L _ _ _ _ Hfail)
        as [->|(rev & _ & ->)]; by eexists _, _.
  - intros network' Hsame. unfold main. cbv zeta. by rewrite Hsame.
  - intros key default. unfold getenv_or. split.
    + by intros [-> | ->].
    + intros value -> Hne. by destruct value.
Qed.

End RunExtras.

(** * The further properties on the sample inputs *)

(** A diff of a skipped region and an empty block. *)
Lemma keyless_blocks_empty_digest_witness :
  repository_compare (DiffJson (Some [Sample.skip_block; (∅ : block)]))
  = digest_end.
Proof.
  apply keyless_blocks_empty_digest.
  repeat constructor.
Defined.

(** The first block of the sample diff. *)
Lemma context_block_line_bound_witness :
  ∃ emitted : list string,
    block_text 4 0 Sample.context_block = render_lines "" emitted ∧
    length emitted ≤ 8 ∧
    (∀ line, line ∈ emitted → line ∈ Sample.five_lines) ∧
    (0 = 0 ∨ 0 = 4 - 1 →
     length emitted ≤ 4 ∧ emitted `sublist_of` Sample.five_lines).
Proof.
  apply (context_block_line_bound 4 0 Sample.context_block Sample.five_lines).
  reflexivity.
Defined.

(** Nine lines of context between two other blocks. *)
Lemma long_middle_block_cut_witness :
  ∃ first4 omitted last4 : list string,
    Sample.nine_lines = first4 ++ omitted ++ last4 ∧
    length first4 = 4 ∧ length last4 = 4 ∧
    length omitted = length Sample.nine_lines - 8 ∧
    block_text 3 1 Sample.long_block = render_lines "" (first4 ++ last4) ∧
    (first4 ++ last4) `sublist_of` Sample.nine_lines.
Proof.
  apply (long_middle_block_cut 3 1 Sample.long_block Sample.nine_lines);
    [reflexivity | discriminate | discriminate | cbn; lia].
Defined.

(** Three lines of context between two other blocks. *)
Lemma short_context_block_whole_witness :
  block_text 4 2 Sample.short_block
  = if decide (2 = 0 ∨ 2 = 4 - 1) then render_lines "" Sample.three_lines
    else render_lines "" Sample.three_lines
         +:+ render_lines "" Sample.three_lines.
Proof.
  apply (short_context_block_whole 4 2 Sample.short_block Sample.three_lines);
    [reflexivity | cbn; lia].
Defined.

(** A context block with and without an "a" list. *)
Lemma block_text_keys_witness :
  block_text 1 0 Sample.mixed_block = block_text 1 0 Sample.context_block.
Proof.
  apply (block_text_keys 1 0 Sample.mixed_block Sample.context_block);
    [reflexivity | intros H; vm_compute in H; discriminate H].
Defined.

(** A change, and a change followed by a skipped region. *)
Lemma changed_blocks_digest_app_witness :
  ∃ t1 t2 : string,
    repository_compare (DiffJson (Some [Sample.changed_block]))
    = t1 +:+ digest_end ∧
    repository_compare
      (DiffJson (Some [Sample.changed_block; Sample.skip_block]))
    = t2 +:+ digest_end ∧
    repository_compare
      (DiffJson
         (Some ([Sample.changed_block]
                  ++ [Sample.changed_block; Sample.skip_block])))
    = t1 +:+ t2 +:+ digest_end.
Proof.
  apply (changed_blocks_digest_app [Sample.changed_block]
           [Sample.changed_block; Sample.skip_block]).
  repeat constructor.
Defined.

(** A file named ".md" in a directory. *)
Lemma leading_dots_never_ignored_witness :
  is_ignored_file ("docs/" +:+ "." +:+ "md") = false.
Proof.
  apply (leading_dots_never_ignored "docs/" "." "md").
  - right. by exists "docs".
  - intros c Hin. apply list_elem_of_singleton in Hin. exact Hin.
  - cbn. rewrite !not_elem_of_cons.
    repeat split; [discriminate..|apply not_elem_of_nil].
  - cbn. rewrite !not_elem_of_cons.
    repeat split; [discriminate..|apply not_elem_of_nil].
Defined.

Lemma is_ignored_file_caseless_witness :
  is_ignored_file "README.MD" = is_ignored_file "readme.md".
Proof. apply (is_ignored_file_caseless "README.MD" "readme.md"). reflexivity. Defined.

(** The run on the server that cannot be reached. *)
Lemma raising_run_requests_witness :
  [change_url_of Sample.base_url Sample.change_id]
  = [change_url_of Sample.base_url Sample.change_id]
  ∨ ∃ rev,
      change_ok Sample.lib Sample.offline Sample.base_url Sample.change_id
        rev ∧
      [change_url_of Sample.base_url Sample.change_id]
      = [change_url_of Sample.base_url Sample.change_id;
         file_url_of Sample.base_url Sample.change_id rev].
Proof.
  apply (raising_run_requests Sample.lib Sample.offline Sample.base_url
           Sample.change_id [change_url_of Sample.base_url Sample.change_id]
           (Exn OtherError "Connection refused")).
  reflexivity.
Defined.

(** The run on the sample server. *)
Lemma one_entry_per_diff_request_witness :
  ∃ results : list string,
    (Repository_Compare Sample.lib Sample.server Sample.base_url
       Sample.change_id).2
    = Return results ∧
    length results
    = length (filter (λ f, is_ignored_file f = false) Sample.files) ∧
    length
      (Repository_Compare Sample.lib Sample.server Sample.base_url
         Sample.change_id).1
    = 2 + length results.
Proof.
  exact (one_entry_per_diff_request Sample.lib Sample.server Sample.base_url
           Sample.change_id Sample.file_url Sample.files
           sample_preliminaries).
Defined.

(** The first file of the sample server. *)
Lemma fetched_diff_entry_witness :
  ∃ before after : list string,
    (Repository_Compare Sample.lib Sample.server Sample.base_url
       Sample.change_id).2
    = Return
        (before
           ++ (header "src/main.c" +:+ repository_compare Sample.diff)
           :: after) ∧
    length before
    = length (filter (λ f, is_ignored_file f = false) (take 0 Sample.files)) ∧
    length after
    = length
        (filter (λ f, is_ignored_file f = false) (drop 1 Sample.files)).
Proof.
  apply (fetched_diff_entry Sample.lib Sample.server Sample.base_url
           Sample.change_id Sample.file_url Sample.files 0 "src/main.c"
           (200, Sample.framed "DIFF") "DIFF" Sample.diff
           sample_preliminaries);
    reflexivity.
Defined.

Lemma docs_preliminaries :
  preliminaries Sample.docs_lib Sample.docs_server Sample.base_url
    Sample.change_id Sample.file_url ["README.md"; "img/logo.PNG"].
Proof.
  assert (Hchange : change_ok Sample.docs_lib Sample.docs_server
                      Sample.base_url Sample.change_id "rev1").
  { by apply (ChangeOk Sample.docs_lib Sample.docs_server _ _
                (200, Sample.framed "CHANGE") "CHANGE"
                (ChangeInfo (Some "rev1")) "rev1"). }
  exact (Preliminaries Sample.docs_lib Sample.docs_server _ _ "rev1"
           (200, Sample.framed "FILES") "FILES"
           [("/COMMIT_MSG", tt); ("README.md", tt); ("img/logo.PNG", tt)]
           Hchange eq_refl eq_refl eq_refl eq_refl).
Qed.

(** A change that touches a document and a picture only. *)
Lemma all_ignored_empty_results_witness :
  Repository_Compare Sample.docs_lib Sample.docs_server Sample.base_url
    Sample.change_id
  = ([change_url_of Sample.base_url Sample.change_id; Sample.file_url],
     Return []).
Proof.
  apply (all_ignored_empty_results Sample.docs_lib Sample.docs_server
           Sample.base_url Sample.change_id Sample.file_url
           ["README.md"; "img/logo.PNG"] docs_preliminaries).
  repeat constructor.
Defined.

(** The file of the sample server whose diff is not JSON. *)
Lemma decode_failure_entry_witness :
  ∃ (before after : list string) (excerpt tail : string),
    (Repository_Compare Sample.lib Sample.server Sample.base_url
       Sample.change_id).2
    = Return
        (before
           ++ (header "src/bad.c" +:+ "[Error] " +:+ "Decode diff for "
                 +:+ "src/bad.c" +:+ " failed: " +:+ "Expecting value"
                 +:+ nl +:+ "Raw: " +:+ excerpt +:+ nl +:+ nl)
           :: after) ∧
    text Sample.lib (200, "<html>") = excerpt +:+ tail ∧
    String.length excerpt
    = min 200 (String.length (text Sample.lib (200, "<html>"))) ∧
    length before
    = length (filter (λ f, is_ignored_file f = false) (take 3 Sample.files)) ∧
    length after
    = length
        (filter (λ f, is_ignored_file f = false) (drop 4 Sample.files)).
Proof.
  apply (decode_failure_entry Sample.lib Sample.server Sample.base_url
           Sample.change_id Sample.file_url Sample.files 3 "src/bad.c"
           (200, "<html>") "<html>" "Expecting value" sample_preliminaries);
    reflexivity.
Defined.



(** The script when the server cannot be reached. *)
Lemma main_silent_on_failure_witness :
  ∃ log,
    main Sample.lib (λ _, Sample.offline) ∅
    = (log, ("", Raise (Exn OtherError "Connection refused"))).
Proof.
  apply (main_silent_on_failure Sample.lib (λ _, Sample.offline) ∅
           (Exn OtherError "Connection refused")).
  apply ChangeGetRaises. reflexivity.
Defined.

Example sample_main_output :
  (main Sample.lib Sample.network ∅).2.1
  = (header "src/main.c" +:+ repository_compare Sample.diff) +:+ nl
    +:+ error_entry "src/gone.c" (Exn OtherError "Connection refused") +:+ nl
    +:+ error_entry "src/bad.c" (Exn OtherError "Connection refused") +:+ nl
    +:+ error_entry "src/down.c" (Exn OtherError "Connection refused") +:+ nl.
Proof. vm_compute. reflexivity. Qed.
